(** * CardputerSMAGPS: NMEA sentence assembly, GGA field extraction and the
      GPX recording session.

    The repository holds two sketches.  [GPSSMACARD.ino] is the first one;
    the second (the "115200" sketch) reworks [parseGGA], the sentence filter
    and the key handling.  Both are embedded here: what they share is
    defined once, what differs lives in the modules [Sketch115200] and
    [GPSSMACARD].

    The display code is left out.  The GPS decoder (TinyGPS++), the clock
    ([millis]), the keyboard and the SD card are the environment: their
    answers are arguments of the functions that ask for them. *)

From Stdlib Require Import ZArith QArith Qround Ascii String DecimalString.
From Stdlib Require DecimalN DecimalPos.
From stdpp Require Import base gmap strings list.

Local Open Scope string_scope.
Local Open Scope Z_scope.

(** ** Arduino library routines used by the sketches *)

Module Arduino.

(** The characters [isspace] accepts in the C locale. *)
Definition isspace (c : ascii) : bool :=
  let n := nat_of_ascii c in
  ((9 <=? n) && (n <=? 13) || (n =? 32))%nat.

Definition isdigit (c : ascii) : bool :=
  let n := nat_of_ascii c in ((48 <=? n) && (n <=? 57))%nat.

Definition digit_value (c : ascii) : Z := Z.of_nat (nat_of_ascii c) - 48.

Fixpoint skip_space (s : string) : string :=
  match s with
  | String c r => if isspace c then skip_space r else s
  | EmptyString => s
  end.

(** Value of the leading run of decimal digits, [acc] being the value read
    so far. *)
Fixpoint leading_digits (s : string) (acc : Z) : Z :=
  match s with
  | String c r =>
      if isdigit c then leading_digits r (acc * 10 + digit_value c) else acc
  | EmptyString => acc
  end.

Definition LONG_MAX : Z := 2147483647.
Definition LONG_MIN : Z := -2147483648.

Definition clamp_long (z : Z) : Z := Z.max LONG_MIN (Z.min LONG_MAX z).

(** [String::toInt] is [atol] on the buffer: white space, an optional
    sign, decimal digits; anything else ends the number, and no digits
    at all give 0.  Out of range values saturate (newlib's [strtol]). *)
Definition toInt (s : string) : Z :=
  match skip_space s with
  | String "-" r => clamp_long (- leading_digits r 0)
  | String "+" r => clamp_long (leading_digits r 0)
  | r => clamp_long (leading_digits r 0)
  end.

(** [String::substring(left, right)]. *)
Definition substring (s : string) (left right : nat) : string :=
  let (left, right) := if (right <? left)%nat then (right, left) else (left, right) in
  if (String.length s <=? left)%nat then ""
  else String.substring left (Nat.min right (String.length s) - left) s.

(** [String::operator[]]: the character at [i], NUL out of range. *)
Definition charAt (s : string) (i : nat) : ascii :=
  match String.get i s with Some c => c | None => zero end.

(** [String::startsWith]. *)
Definition startsWith (s p : string) : bool := String.prefix p s.

(** Decimal text of an unsigned number ([Print::print(unsigned long)],
    [String(unsigned)], [%d] on a non-negative argument). *)
Definition decimal (n : N) : string := NilZero.string_of_uint (N.to_uint n).

(** [%0<w>d] on a non-negative argument. *)
Definition decimal_pad0 (w : nat) (n : N) : string :=
  let d := decimal n in
  String.concat "" (repeat "0" (w - String.length d)) ++ d.

Definition CRLF : string := String "013" (String "010" "").

End Arduino.

(** ** Floating point numbers

    The sketches read [double]s from the decoder, keep one [float] ([hdop])
    and hand both to [Print::print(double, digits)].  Nothing below depends
    on how the target rounds, so the numbers are an interface: a type with
    the few operations the sketches use. *)

(** Text that can stand inside an XML element or attribute value as it is. *)
Definition is_markup (c : ascii) : bool :=
  Ascii.eqb c "<" || Ascii.eqb c ">" || Ascii.eqb c "&" || Ascii.eqb c "034".

Fixpoint plain (s : string) : bool :=
  match s with
  | EmptyString => true
  | String c r => negb (is_markup c) && plain r
  end.

Class FloatOps (F : Type) := {
  fzero : F;                          (* 0.0f *)
  fpositive : F -> bool;              (* x > 0.0f *)
  toFloat : string -> F;              (* String::toFloat *)
  printFloat : F -> nat -> string;    (* the text Print::print(x, digits) emits *)
  (* zero is not above zero *)
  fpositive_fzero : fpositive fzero = false;
  (* printFloat emits digits, a sign, a point, or one of nan, inf, ovf *)
  printFloat_plain : forall x digits, plain (printFloat x digits) = true;
}.

(** ** Fix quality: the two globals [fixQuality] and [hdop] *)

Record Quality (F : Type) := mkQuality { fixQuality : Z; hdop : F }.
Arguments mkQuality {F} _ _.
Arguments fixQuality {F} _.
Arguments hdop {F} _.

Section ParseGGA.
Context {F : Type} `{FloatOps F}.

Definition is_delimiter (c : ascii) : bool :=
  (Ascii.eqb c ",") || (Ascii.eqb c "*").

(** The body of the [for] loop of [parseGGA], [n] iterations left, with
    the loop variable [i] and the locals [lastIndex] and [field].
    [hdop_field] is the field number whose text goes to [hdop]: 8 in the
    115200 sketch, 9 in GPSSMACARD.ino. *)
Fixpoint parseGGA_loop (hdop_field : Z) (gga : string) (n i lastIndex : nat)
    (field : Z) (q : Quality F) : Quality F :=
  match n with
  | O => q
  | S n' =>
      if is_delimiter (Arduino.charAt gga i) then
        let value := Arduino.substring gga lastIndex i in
        let lastIndex := S i in
        let field := field + 1 in
        let q := if field =? 6
                 then mkQuality (Arduino.toInt value) (hdop q) else q in
        let q := if field =? hdop_field
                 then mkQuality (fixQuality q) (toFloat value) else q in
        if field >? 9 then q
        else parseGGA_loop hdop_field gga n' (S i) lastIndex field q
      else parseGGA_loop hdop_field gga n' (S i) lastIndex field q
  end.

End ParseGGA.

(** ** The environment: decoder snapshot and SD card *)

(** What the sketches read from the TinyGPS++ object. *)
Record Snapshot (F : Type) := mkSnapshot {
  location_valid : bool;  lat : F;  lng : F;
  date_valid : bool;  year : N;  month : N;  day : N;
  time_valid : bool;  hour : N;  minute : N;  second : N;
  altitude_valid : bool;  meters : F;
  speed_valid : bool;  kmph : F;
  course_valid : bool;  deg : F;
}.
Arguments mkSnapshot {F}.
Arguments location_valid {F}. Arguments lat {F}. Arguments lng {F}.
Arguments date_valid {F}. Arguments year {F}. Arguments month {F}. Arguments day {F}.
Arguments time_valid {F}. Arguments hour {F}. Arguments minute {F}. Arguments second {F}.
Arguments altitude_valid {F}. Arguments meters {F}.
Arguments speed_valid {F}. Arguments kmph {F}.
Arguments course_valid {F}. Arguments deg {F}.

(** The card: the files on it by path, whether it takes writes at the
    moment, and how often [SD.open] has been called. *)
Record Card := mkCard {
  sd_files : gmap string string;
  sd_ok : bool;
  sd_open_calls : nat;
}.

(** The sketch state: the globals, the [static] locals of [loop], and the
    card.  [gpxFile] is [Some path] while the [File] object tests true. *)
Record World (F : Type) := mkWorld {
  gpxFile : option string;
  isRecording : bool;
  filename : string;
  lastGGA : string;
  quality : Quality F;
  rPrev : bool;
  nmeaLine : string;
  lastWrite : Z;
  card : Card;
}.
Arguments mkWorld {F}.
Arguments gpxFile {F}. Arguments isRecording {F}. Arguments filename {F}.
Arguments lastGGA {F}. Arguments quality {F}. Arguments rPrev {F}.
Arguments nmeaLine {F}. Arguments lastWrite {F}. Arguments card {F}.

(** Which branch a call took; the C functions themselves return nothing. *)
Inductive StartResult := Started | AlreadyActive | OpenFailed.
Inductive AppendResult := Written | NotActive | NoLocation.
Inductive StopResult := Stopped | StopNotActive.

Section Session.
Context {F : Type} `{FloatOps F}.

Definition set_gpxFile (v : option string) (w : World F) : World F :=
  mkWorld v (isRecording w) (filename w) (lastGGA w) (quality w)
          (rPrev w) (nmeaLine w) (lastWrite w) (card w).
Definition set_isRecording (v : bool) (w : World F) : World F :=
  mkWorld (gpxFile w) v (filename w) (lastGGA w) (quality w)
          (rPrev w) (nmeaLine w) (lastWrite w) (card w).
Definition set_filename (v : string) (w : World F) : World F :=
  mkWorld (gpxFile w) (isRecording w) v (lastGGA w) (quality w)
          (rPrev w) (nmeaLine w) (lastWrite w) (card w).
Definition set_lastGGA (v : string) (w : World F) : World F :=
  mkWorld (gpxFile w) (isRecording w) (filename w) v (quality w)
          (rPrev w) (nmeaLine w) (lastWrite w) (card w).
Definition set_quality (v : Quality F) (w : World F) : World F :=
  mkWorld (gpxFile w) (isRecording w) (filename w) (lastGGA w) v
          (rPrev w) (nmeaLine w) (lastWrite w) (card w).
Definition set_rPrev (v : bool) (w : World F) : World F :=
  mkWorld (gpxFile w) (isRecording w) (filename w) (lastGGA w) (quality w)
          v (nmeaLine w) (lastWrite w) (card w).
Definition set_nmeaLine (v : string) (w : World F) : World F :=
  mkWorld (gpxFile w) (isRecording w) (filename w) (lastGGA w) (quality w)
          (rPrev w) v (lastWrite w) (card w).
Definition set_lastWrite (v : Z) (w : World F) : World F :=
  mkWorld (gpxFile w) (isRecording w) (filename w) (lastGGA w) (quality w)
          (rPrev w) (nmeaLine w) v (card w).
Definition set_card (v : Card) (w : World F) : World F :=
  mkWorld (gpxFile w) (isRecording w) (filename w) (lastGGA w) (quality w)
          (rPrev w) (nmeaLine w) (lastWrite w) v.

(** The environment switches the card between taking and refusing writes. *)
Definition set_sd_ok (ok : bool) (w : World F) : World F :=
  set_card (mkCard (sd_files (card w)) ok (sd_open_calls (card w))) w.

(** *** File operations *)

(** [SD.open(path, FILE_WRITE)]: on the ESP32 core [FILE_WRITE] is mode "w",
    so on success the file exists and is empty. *)
Definition SD_open (path : string) (open_ok : bool) (c : Card) : option string * Card :=
  if open_ok
  then (Some path, mkCard (<[path := ""]> (sd_files c)) (sd_ok c) (S (sd_open_calls c)))
  else (None, mkCard (sd_files c) (sd_ok c) (S (sd_open_calls c))).

(** [gpxFile.print(text)]: the text goes to the end of the open file; a
    card that refuses the write leaves the file as it is, and the
    sketches never look at the byte count [print] returns. *)
Definition print (text : string) (w : World F) : World F :=
  match gpxFile w with
  | Some path =>
      if sd_ok (card w)
      then set_card (mkCard (alter (fun s => s ++ text) path (sd_files (card w)))
                            (sd_ok (card w)) (sd_open_calls (card w))) w
      else w
  | None => w
  end.

Definition println (text : string) : World F -> World F :=
  print (text ++ Arduino.CRLF).

(** [gpxFile.close()]: the handle tests false afterwards. *)
Definition close (w : World F) : World F := set_gpxFile None w.

(** [gpxFile.flush()]: the model keeps no write buffer. *)
Definition flush (w : World F) : World F := w.

(** Statement sequencing and [if] without [else] on state transformers. *)
Definition seq (a b : World F -> World F) : World F -> World F :=
  fun w => b (a w).
Definition when (c : bool) (a : World F -> World F) : World F -> World F :=
  if c then a else id.

Local Infix ">>" := seq (at level 61, left associativity).

(** *** createGPX *)

(** The file name [createGPX] builds; [now] is what [millis()] returns. *)
Definition track_filename (gps : Snapshot F) (now : Z) : string :=
  "/track_"
  ++ (if date_valid gps
      then (Arduino.decimal (year gps) ++ "-")
           ++ (Arduino.decimal (month gps) ++ "-")
           ++ (Arduino.decimal (day gps) ++ "_")
      else "")
  ++ Arduino.decimal (Z.to_N (now / 1000))
  ++ ".gpx".

Definition gpx_preamble : World F -> World F :=
  println "<?xml version='1.0' encoding='UTF-8'?>" >>
  println "<gpx version='1.1'>" >>
  println "<trk><trkseg>".

Definition createGPX (gps : Snapshot F) (now : Z) (open_ok : bool)
    (w : World F) : StartResult * World F :=
  if isRecording w then (AlreadyActive, w)
  else
    let w := set_filename (track_filename gps now) w in
    let (handle, c) := SD_open (filename w) open_ok (card w) in
    let w := set_gpxFile handle (set_card c w) in
    if gpxFile w is Some _
    then (Started, set_isRecording true (gpx_preamble w))
    else (OpenFailed, w).

(** *** writeGPXPoint *)

Definition timestamp (gps : Snapshot F) : string :=
  Arduino.decimal_pad0 4 (year gps) ++ "-" ++
  Arduino.decimal_pad0 2 (month gps) ++ "-" ++
  Arduino.decimal_pad0 2 (day gps) ++ "T" ++
  Arduino.decimal_pad0 2 (hour gps) ++ ":" ++
  Arduino.decimal_pad0 2 (minute gps) ++ ":" ++
  Arduino.decimal_pad0 2 (second gps) ++ "Z".

Definition quote : string := String "034" "".

Definition writeGPXPoint_body (gps : Snapshot F) : World F -> World F :=
  print ("<trkpt lat=" ++ quote) >>
  print (printFloat (lat gps) 6) >>
  print (quote ++ " lon=" ++ quote) >>
  print (printFloat (lng gps) 6) >>
  println (quote ++ ">") >>
  print "<time>" >>
  when (date_valid gps && time_valid gps) (print (timestamp gps)) >>
  println "</time>" >>
  when (altitude_valid gps)
    (print "<ele>" >> print (printFloat (meters gps) 2) >> println "</ele>") >>
  when (speed_valid gps)
    (print "<speed>" >> print (printFloat (kmph gps) 2) >> println "</speed>") >>
  when (course_valid gps)
    (print "<course>" >> print (printFloat (deg gps) 2) >> println "</course>") >>
  (fun w =>
     when (fpositive (hdop (quality w)))
       (print "<hdop>" >> print (printFloat (hdop (quality w)) 1) >> println "</hdop>") w) >>
  println "</trkpt>" >>
  flush.

Definition writeGPXPoint (gps : Snapshot F) (w : World F) : AppendResult * World F :=
  if negb (isRecording w) || negb (bool_decide (is_Some (gpxFile w)))
  then (NotActive, w)
  else if negb (location_valid gps) then (NoLocation, w)
  else (Written, writeGPXPoint_body gps w).

(** *** stopRecording *)

Definition stopRecording (w : World F) : StopResult * World F :=
  if isRecording w && bool_decide (is_Some (gpxFile w))
  then (Stopped,
        (println "</trkseg></trk></gpx>" >> close >> set_isRecording false) w)
  else (StopNotActive, w).

(** *** The serial loop: sentence assembly *)

Definition LF : ascii := "010".
Definition CR : ascii := "013".

(** One turn of the [while (GPS_Serial.available())] loop on the byte [c].
    [accept] is the test on the finished line and [parse] the sketch's
    [parseGGA]; the first component is the line a line feed completes. *)
Definition serial_byte (accept : string -> bool)
    (parse : string -> Quality F -> Quality F)
    (c : ascii) (w : World F) : option string * World F :=
  if Ascii.eqb c LF then
    let line := nmeaLine w in
    let w := if accept line
             then (fun w => set_quality (parse (lastGGA w) (quality w)) w)
                    (set_lastGGA line w)
             else w in
    (Some line, set_nmeaLine "" w)
  else if negb (Ascii.eqb c CR) then
    (None, set_nmeaLine (nmeaLine w ++ String c "") w)
  else (None, w).

(** The whole [while] loop on the bytes waiting in the UART, with the
    lines completed on the way, oldest first. *)
Fixpoint serial_loop (accept : string -> bool)
    (parse : string -> Quality F -> Quality F)
    (bytes : list ascii) (w : World F) : list string * World F :=
  match bytes with
  | [] => ([], w)
  | c :: rest =>
      let (done, w) := serial_byte accept parse c w in
      let (more, w) := serial_loop accept parse rest w in
      (match done with Some l => l :: more | None => more end, w)
  end.

(** *** The three-second gate *)

Definition UINT32 : Z := 2 ^ 32.

(** [millis() - lastWrite] in [uint32_t] arithmetic. *)
Definition elapsed (now last : Z) : Z := (now - last) mod UINT32.

(** The block of [loop] that writes a point: [now_gate] is the clock read
    in the condition, [now_mark] the one stored in [lastWrite]. *)
Definition loop_gpx (gps : Snapshot F) (now_gate now_mark : Z)
    (w : World F) : World F :=
  if isRecording w && (elapsed now_gate (lastWrite w) >? 3000)
  then set_lastWrite now_mark (snd (writeGPXPoint gps w))
  else w.

(** What one pass of [loop] reads from the environment. *)
Record LoopInput := mkLoopInput {
  in_key_r : bool;            (* Keyboard.isKeyPressed('r') *)
  in_gps_key : Snapshot F;    (* the decoder when the key is handled *)
  in_now_key : Z;             (* millis() inside createGPX *)
  in_open_ok : bool;          (* whether SD.open succeeds *)
  in_serial : list ascii;     (* the bytes waiting in the UART *)
  in_gps : Snapshot F;        (* the decoder after those bytes *)
  in_now_gate : Z;
  in_now_mark : Z;
}.

End Session.

Arguments LoopInput : clear implicits.

(** ** The two sketches *)

Module Sketch115200.
Section Defs.
Context {F : Type} `{FloatOps F}.

(** [parseGGA]: both globals are cleared, then the fields are scanned.
    The argument [q] is the value of the globals on entry. *)
Definition parseGGA (gga : string) (q : Quality F) : Quality F :=
  parseGGA_loop 8 gga (String.length gga) 0 0 0 (mkQuality 0 fzero).

Definition accepts (line : string) : bool :=
  Arduino.startsWith line "$GPGGA" || Arduino.startsWith line "$GNGGA".

Definition feed : ascii -> World F -> option string * World F :=
  serial_byte accepts parseGGA.

Definition serial : list ascii -> World F -> list string * World F :=
  serial_loop accepts parseGGA.

(** The 'r' key toggles on the press edge. *)
Definition loop_key (i : LoopInput F) (w : World F) : World F :=
  let w' :=
    if in_key_r i && negb (rPrev w) then
      if negb (isRecording w)
      then snd (createGPX (in_gps_key i) (in_now_key i) (in_open_ok i) w)
      else snd (stopRecording w)
    else w in
  set_rPrev (in_key_r i) w'.

Definition loop (i : LoopInput F) (w : World F) : World F :=
  let w := loop_key i w in
  let w := snd (serial (in_serial i) w) in
  loop_gpx (in_gps i) (in_now_gate i) (in_now_mark i) w.

End Defs.
End Sketch115200.

Module GPSSMACARD.
Section Defs.
Context {F : Type} `{FloatOps F}.

(** [parseGGA] of GPSSMACARD.ino: no clearing, [hdop] from field 9. *)
Definition parseGGA (gga : string) (q : Quality F) : Quality F :=
  parseGGA_loop 9 gga (String.length gga) 0 0 0 q.

Definition accepts (line : string) : bool :=
  Arduino.startsWith line "$GPGGA".

Definition feed : ascii -> World F -> option string * World F :=
  serial_byte accepts parseGGA.

Definition serial : list ascii -> World F -> list string * World F :=
  serial_loop accepts parseGGA.

(** [createGPX] of GPSSMACARD.ino: the same steps under [if (!isRecording)],
    and nothing on the display when the open fails. *)
Definition createGPX (gps : Snapshot F) (now : Z) (open_ok : bool)
    (w : World F) : StartResult * World F :=
  if negb (isRecording w) then
    let w := set_filename (track_filename gps now) w in
    let (handle, c) := SD_open (filename w) open_ok (card w) in
    let w := set_gpxFile handle (set_card c w) in
    if gpxFile w is Some _
    then (Started, set_isRecording true (gpx_preamble w))
    else (OpenFailed, w)
  else (AlreadyActive, w).

(** The 'r' key toggles on every pass that sees it down (the sketch then
    waits 300 ms). *)
Definition loop_key (i : LoopInput F) (w : World F) : World F :=
  if in_key_r i then
    if negb (isRecording w)
    then snd (createGPX (in_gps_key i) (in_now_key i) (in_open_ok i) w)
    else snd (stopRecording w)
  else w.

Definition loop (i : LoopInput F) (w : World F) : World F :=
  let w := loop_key i w in
  let w := snd (serial (in_serial i) w) in
  loop_gpx (in_gps i) (in_now_gate i) (in_now_mark i) w.

(** [writeGPXPoint] of GPSSMACARD.ino: the three tests in one condition. *)
Definition writeGPXPoint (gps : Snapshot F) (w : World F) : World F :=
  if location_valid gps && isRecording w && bool_decide (is_Some (gpxFile w))
  then writeGPXPoint_body gps w
  else w.

(** The block of [loop] of GPSSMACARD.ino that writes a point: the clock
    test comes first. *)
Definition loop_gpx (gps : Snapshot F) (now_gate now_mark : Z)
    (w : World F) : World F :=
  if (elapsed now_gate (lastWrite w) >? 3000) && isRecording w
  then set_lastWrite now_mark (writeGPXPoint gps w)
  else w.

End Defs.
End GPSSMACARD.

(** ** States of the session *)

Section States.
Context {F : Type} `{FloatOps F}.

(** The state after [setup]: the initialisers of the globals and of the
    [static] locals, over the card [c]. *)
Definition boot (c : Card) : World F :=
  mkWorld None false "" "" (mkQuality 0 fzero) false "" 0 c.

(** The content of the file at [path]. *)
Definition file_content (w : World F) (path : string) : option string :=
  sd_files (card w) !! path.

(** While recording, the handle is open on the file named [filename], and
    that file is on the card; otherwise the handle is closed. *)
Definition session_invariant (w : World F) : Prop :=
  if isRecording w
  then gpxFile w = Some (filename w) /\ is_Some (file_content w (filename w))
  else gpxFile w = None.

(** The states a sketch reaches from boot: by passes of its [loop], and by
    the card starting or ceasing to take writes in between. *)
Inductive reachable (loop : LoopInput F -> World F -> World F) : World F -> Prop :=
| reachable_boot (c : Card) : reachable loop (boot c)
| reachable_loop (i : LoopInput F) (w : World F) :
    reachable loop w -> reachable loop (loop i w)
| reachable_card (ok : bool) (w : World F) :
    reachable loop w -> reachable loop (set_sd_ok ok w).

(** The parts of the state the session lives in. *)
Definition same_session (w w' : World F) : Prop :=
  gpxFile w' = gpxFile w /\ isRecording w' = isRecording w /\
  filename w' = filename w /\ sd_files (card w') = sd_files (card w).

(** Recording into [path], which holds [text], on a card that takes writes. *)
Definition recording_into (w : World F) (path text : string) : Prop :=
  isRecording w = true /\ gpxFile w = Some path /\ filename w = path /\
  sd_ok (card w) = true /\ file_content w path = Some text.

End States.

(** ** The text of one trackpoint

    [writeGPXPoint] emits the element piece by piece; put together, the
    pieces are the following text, a function of the snapshot and of
    [hdop] alone. *)

Section Text.
Context {F : Type} `{FloatOps F}.

Definition trkpt_open (gps : Snapshot F) : string :=
  "<trkpt lat=" ++ quote ++ printFloat (lat gps) 6 ++ quote
    ++ " lon=" ++ quote ++ printFloat (lng gps) 6 ++ quote ++ ">" ++ Arduino.CRLF.

Definition time_child (gps : Snapshot F) : string :=
  "<time>" ++ (if date_valid gps && time_valid gps then timestamp gps else "")
    ++ "</time>" ++ Arduino.CRLF.

(** An optional child holding one number. *)
Definition number_child (name : string) (present : bool) (x : F) (digits : nat) : string :=
  if present
  then "<" ++ name ++ ">" ++ printFloat x digits ++ "</" ++ name ++ ">" ++ Arduino.CRLF
  else "".

Definition hdop_child (h : F) : string := number_child "hdop" (fpositive h) h 1.

Definition trkpt_close : string := "</trkpt>" ++ Arduino.CRLF.

Definition trkpt_text (gps : Snapshot F) (h : F) : string :=
  trkpt_open gps ++ time_child gps
    ++ number_child "ele" (altitude_valid gps) (meters gps) 2
    ++ number_child "speed" (speed_valid gps) (kmph gps) 2
    ++ number_child "course" (course_valid gps) (deg gps) 2
    ++ hdop_child h ++ trkpt_close.

Definition preamble_text : string :=
  "<?xml version='1.0' encoding='UTF-8'?>" ++ Arduino.CRLF
    ++ "<gpx version='1.1'>" ++ Arduino.CRLF
    ++ "<trk><trkseg>" ++ Arduino.CRLF.

Definition closing_text : string := "</trkseg></trk></gpx>" ++ Arduino.CRLF.

(** The file of a session that took two points, the globals holding [q1]
    at the first and [q2] at the second. *)
Definition two_point_track (g1 g2 : Snapshot F) (q1 q2 : Quality F) : string :=
  preamble_text ++ trkpt_text g1 (hdop q1) ++ trkpt_text g2 (hdop q2) ++ closing_text.

End Text.

(** ** Reading a GPX file back: tags and nesting

    What "well-formed" means below: the tags of the text can be told apart,
    every closing tag matches the innermost open element, and nothing is
    left open.  This reader is the yardstick of the claims about the file,
    not code of the sketches. *)

Module Xml.

(** Text that can stand inside a tag: no angle bracket. *)
Fixpoint tag_safe (s : string) : bool :=
  match s with
  | EmptyString => true
  | String c r => negb (Ascii.eqb c "<") && negb (Ascii.eqb c ">") && tag_safe r
  end.

(** The tags of a document, in order, each without its angle brackets.
    [inside] is [Some body] while a tag is being read.  There is no result
    when a tag is left open, when a tag holds a '<', or when the text
    between tags holds a '&'. *)
Fixpoint tags_from (inside : option string) (doc : string) : option (list string) :=
  match doc, inside with
  | EmptyString, None => Some []
  | EmptyString, Some _ => None
  | String c r, None =>
      if Ascii.eqb c "<" then tags_from (Some "") r
      else if Ascii.eqb c "&" then None
      else tags_from None r
  | String c r, Some body =>
      if Ascii.eqb c ">" then cons body <$> tags_from None r
      else if Ascii.eqb c "<" then None
      else tags_from (Some (body ++ String c "")) r
  end.

Inductive Tag := Declaration | Opening (name : string) | Closing (name : string).

(** The element name of a tag: its text up to the first blank. *)
Fixpoint tag_name (body : string) : string :=
  match body with
  | EmptyString => ""
  | String c r => if Ascii.eqb c " " then "" else String c (tag_name r)
  end.

Definition classify (body : string) : Tag :=
  match body with
  | String "?" _ => Declaration
  | String "/" name => Closing name
  | _ => Opening (tag_name body)
  end.

(** Walks the tags with the stack of open elements, innermost first.  The
    result is the path of every element opened, in document order, and the
    stack that is left; there is none when a closing tag does not match. *)
Fixpoint paths_from (stack : list string) (tags : list Tag)
    : option (list (list string) * list string) :=
  match tags with
  | [] => Some ([], stack)
  | Declaration :: r => paths_from stack r
  | Opening n :: r =>
      match paths_from (n :: stack) r with
      | Some (ps, st) => Some ((n :: stack) :: ps, st)
      | None => None
      end
  | Closing n :: r =>
      match stack with
      | m :: st => if String.eqb n m then paths_from st r else None
      | [] => None
      end
  end.

(** The elements of a well-formed document, each as its path from itself up
    to the root; [None] for a document that is not well-formed. *)
Definition elements (doc : string) : option (list (list string)) :=
  match tags_from None doc with
  | Some ts =>
      match paths_from [] (map classify ts) with
      | Some (ps, []) => Some ps
      | _ => None
      end
  | None => None
  end.

End Xml.

(** *** The tags and elements of a track file *)

Section TrackShape.
Context {F : Type} `{FloatOps F}.

Definition trkpt_tag (gps : Snapshot F) : string :=
  "trkpt lat=" ++ quote ++ printFloat (lat gps) 6 ++ quote
    ++ " lon=" ++ quote ++ printFloat (lng gps) 6 ++ quote.

Definition point_tags (gps : Snapshot F) (h : F) : list string :=
  ([trkpt_tag gps] ++ ["time"; "/time"]
     ++ (if altitude_valid gps then ["ele"; "/ele"] else [])
     ++ (if speed_valid gps then ["speed"; "/speed"] else [])
     ++ (if course_valid gps then ["course"; "/course"] else [])
     ++ (if fpositive h then ["hdop"; "/hdop"] else [])
     ++ ["/trkpt"])%list.

Definition trkpt_path : list string := ["trkpt"; "trkseg"; "trk"; "gpx"].

(** The elements of one trackpoint. *)
Definition point_paths (gps : Snapshot F) (h : F) : list (list string) :=
  (trkpt_path :: [ "time" :: trkpt_path ]
     ++ (if altitude_valid gps then [ "ele" :: trkpt_path ] else [])
     ++ (if speed_valid gps then [ "speed" :: trkpt_path ] else [])
     ++ (if course_valid gps then [ "course" :: trkpt_path ] else [])
     ++ (if fpositive h then [ "hdop" :: trkpt_path ] else []))%list.

(** The elements around the trackpoints. *)
Definition track_paths : list (list string) :=
  [ ["gpx"]; ["trk"; "gpx"]; ["trkseg"; "trk"; "gpx"] ].

Definition is_trkpt (path : list string) : bool :=
  match path with
  | name :: _ => String.eqb name "trkpt"
  | [] => false
  end.

(** Piece [piece] of a document, met between tags, contributes the tags [ts]
    and ends between tags. *)
Definition emits (piece : string) (ts : list string) : Prop :=
  forall rest, Xml.tags_from None (piece ++ rest) = app ts <$> Xml.tags_from None rest.

Definition prepend_paths (ps : list (list string))
    (r : option (list (list string) * list string))
    : option (list (list string) * list string) :=
  match r with
  | Some (x, st) => Some ((ps ++ x)%list, st)
  | None => None
  end.

(** From the stack [st] the tags [tags] open and close the elements [ps]
    and leave the stack as it was. *)
Definition closes (st : list string) (tags : list Xml.Tag) (ps : list (list string)) : Prop :=
  forall rest, Xml.paths_from st (tags ++ rest) = prepend_paths ps (Xml.paths_from st rest).

End TrackShape.

(** ** Splitting on line feeds, as the specification words it *)

Module Spec.

(** The pieces between line feeds: [k] line feeds give [k + 1] pieces,
    the last one being what follows the last line feed. *)
Fixpoint split_on_lf (bytes : list ascii) : list string :=
  match bytes with
  | [] => [""]
  | c :: rest =>
      if Ascii.eqb c "010" then "" :: split_on_lf rest
      else match split_on_lf rest with
           | piece :: pieces => String c piece :: pieces
           | [] => [String c ""]
           end
  end.

Definition strip_cr (bytes : list ascii) : list ascii :=
  List.filter (fun c => negb (Ascii.eqb c "013")) bytes.

End Spec.

(** [b] put in front of the first piece. *)
Definition prefix_first (b : string) (pieces : list string) : list string :=
  match pieces with
  | p :: ps => (b ++ p) :: ps
  | [] => []
  end.

(** ** Counting the fields of a sentence *)

(** How many field delimiters a sentence holds. *)
Fixpoint count_delimiters (s : string) : Z :=
  match s with
  | EmptyString => 0
  | String c r => (if is_delimiter c then 1 else 0) + count_delimiters r
  end.

(** The same count along the index range the loop walks. *)
Fixpoint delimiters_in (gga : string) (n i : nat) : Z :=
  match n with
  | O => 0
  | S n' => (if is_delimiter (Arduino.charAt gga i) then 1 else 0)
            + delimiters_in gga n' (S i)
  end.

(** ** A rational reading of the numbers, to run the model

    Numbers are exact rationals: [toFloat] reads a decimal literal
    (white space, sign, digits, fraction; an exponent is not read) and
    [printFloat] follows [Print::printFloat] step by step. *)

Module Rational.

Fixpoint fraction_digits (s : string) (num : Z) (den : positive) : Z * positive :=
  match s with
  | String c r =>
      if Arduino.isdigit c
      then fraction_digits r (num * 10 + Arduino.digit_value c) (den * 10)
      else (num, den)
  | EmptyString => (num, den)
  end.

Fixpoint drop_digits (s : string) : string :=
  match s with
  | String c r => if Arduino.isdigit c then drop_digits r else s
  | EmptyString => s
  end.

Definition unsigned_literal (s : string) : Q :=
  let ip := Arduino.leading_digits s 0 in
  match drop_digits s with
  | String "." r => let (n, d) := fraction_digits r ip 1 in Qred (n # d)
  | _ => inject_Z ip
  end.

Definition atof (s : string) : Q :=
  match Arduino.skip_space s with
  | String "-" r => Qred (- unsigned_literal r)
  | String "+" r => unsigned_literal r
  | r => unsigned_literal r
  end.

Fixpoint print_fraction (digits : nat) (remainder : Q) : string :=
  match digits with
  | O => ""
  | S d =>
      let remainder := remainder * 10 in
      let toPrint := Qfloor remainder in
      Arduino.decimal (Z.to_N toPrint) ++ print_fraction d (remainder - inject_Z toPrint)
  end%Q.

Definition print (number : Q) (digits : nat) : string :=
  if Qlt_le_dec 4294967040 number then "ovf"
  else if Qlt_le_dec number (-4294967040) then "ovf"
  else
    let sign := if Qlt_le_dec number 0 then "-" else "" in
    let number := if Qlt_le_dec number 0 then (- number)%Q else number in
    let rounding := ((1 # 2) / inject_Z (10 ^ Z.of_nat digits))%Q in
    let number := (number + rounding)%Q in
    let int_part := Qfloor number in
    let remainder := (number - inject_Z int_part)%Q in
    sign ++ Arduino.decimal (Z.to_N int_part)
         ++ (if digits is O then "" else ".")
         ++ print_fraction digits remainder.

End Rational.

(** ** The claims that fail, as they are worded *)

Section AsStated.
Context {F : Type} `{FloatOps F}.

(** C4 as stated: a refused write ends the session. *)
Definition write_failure_ends_session : Prop :=
  forall (gps : Snapshot F) (w : World F),
    isRecording w = true -> sd_ok (card w) = false ->
    isRecording (snd (writeGPXPoint gps w)) = false.

(** C5 as stated: a point skipped for want of a location leaves both the
    file and [lastWrite] alone. *)
Definition skipped_point_keeps_clock : Prop :=
  forall (gps : Snapshot F) (now_gate now_mark : Z) (w : World F),
    isRecording w = true -> location_valid gps = false ->
    card (loop_gpx gps now_gate now_mark w) = card w /\
    lastWrite (loop_gpx gps now_gate now_mark w) = lastWrite w.

(** C6 as stated: the completed lines are all the pieces. *)
Definition completed_lines_are_all_pieces : Prop :=
  forall (bytes : list ascii) (w : World F),
    nmeaLine w = "" ->
    fst (Sketch115200.serial bytes w) = Spec.split_on_lf (Spec.strip_cr bytes).

(** C7 as stated: after a start the first pass of [loop] that sees a valid
    location writes a point, whenever that pass comes. *)
Definition start_resets_sample_clock : Prop :=
  forall (gps gps' : Snapshot F) (now now_gate now_mark : Z) (w : World F),
    fst (createGPX gps now true w) = Started ->
    sd_ok (card w) = true -> location_valid gps' = true ->
    card (loop_gpx gps' now_gate now_mark (snd (createGPX gps now true w)))
      <> card (snd (createGPX gps now true w)).

End AsStated.

(** ** Sample data *)

Definition fresh_card : Card := mkCard ∅ true 0.

(** A fix near Munich with date, time, altitude and speed, no course. *)
Definition sample_fix : Snapshot Q :=
  mkSnapshot true (481173 # 10000) (115167 # 10000)
             true 2024 5 17  true 12 35 19
             true (5454 # 10)  true (1 # 2)  false 0%Q.

(** The decoder before the first fix: nothing is valid. *)
Definition no_fix : Snapshot Q :=
  mkSnapshot false 0%Q 0%Q  false 2000 0 0  false 0 0 0  false 0%Q  false 0%Q  false 0%Q.

Definition gga_example : string :=
  "$GPGGA,123519,4807.038,N,01131.000,E,1,08,0.9,545.4,M,46.9,M,,*47".

Definition gn_example : string :=
  "$GNGGA,123520,4807.038,N,01131.000,E,1,08,1.5,545.4,M,46.9,M,,*47".

Definition line_bytes (line : string) : list ascii :=
  list_ascii_of_string (line ++ Arduino.CRLF).

(** ** Fields, runs of points and growth: the notions of the further
       properties *)

(** The fields of a sentence as [parseGGA] meets them: the text before each
    delimiter, in order; what follows the last delimiter is not a field.
    [cur] is the text read since the last delimiter. *)
Fixpoint fields_from (cur : string) (s : string) : list string :=
  match s with
  | EmptyString => []
  | String c r =>
      if is_delimiter c then cur :: fields_from "" r
      else fields_from (cur ++ String c "") r
  end.

Definition terminated_fields (s : string) : list string := fields_from "" s.

Fixpoint no_delimiter (s : string) : bool :=
  match s with
  | EmptyString => true
  | String c r => negb (is_delimiter c) && no_delimiter r
  end.

(** Text without carriage return or line feed. *)
Fixpoint no_line_end (s : string) : bool :=
  match s with
  | EmptyString => true
  | String c r => negb (Ascii.eqb c LF) && negb (Ascii.eqb c CR) && no_line_end r
  end.

Section Runs.
Context {F : Type} `{FloatOps F}.

(** What the loop of [parseGGA] does with the fields that are still to
    come, [field] of them being counted already. *)
Fixpoint assign_fields (hdop_field : Z) (field : Z) (q : Quality F)
    (fs : list string) : Quality F :=
  match fs with
  | [] => q
  | value :: rest =>
      let field := field + 1 in
      let q := if field =? 6
               then mkQuality (Arduino.toInt value) (hdop q) else q in
      let q := if field =? hdop_field
               then mkQuality (fixQuality q) (toFloat value) else q in
      if field >? 9 then q else assign_fields hdop_field field q rest
  end.

(** One call of [writeGPXPoint] per entry, the globals holding the entry's
    quality at its call. *)
Fixpoint append_points (pts : list (Snapshot F * Quality F)) (w : World F) : World F :=
  match pts with
  | [] => w
  | (gps, q) :: rest => append_points rest (snd (writeGPXPoint gps (set_quality q w)))
  end.

(** The entries that have a valid location. *)
Definition located (pts : list (Snapshot F * Quality F)) : list (Snapshot F * Quality F) :=
  List.filter (fun p => location_valid (fst p)) pts.

Fixpoint points_text (pts : list (Snapshot F * Quality F)) : string :=
  match pts with
  | [] => ""
  | (gps, q) :: rest => trkpt_text gps (hdop q) ++ points_text rest
  end.

Fixpoint points_tags (pts : list (Snapshot F * Quality F)) : list string :=
  match pts with
  | [] => []
  | (gps, q) :: rest => (point_tags gps (hdop q) ++ points_tags rest)%list
  end.

Fixpoint points_paths (pts : list (Snapshot F * Quality F)) : list (list string) :=
  match pts with
  | [] => []
  | (gps, q) :: rest => (point_paths gps (hdop q) ++ points_paths rest)%list
  end.

(** Every file of [w] is still there in [w'], with its old content first. *)
Definition grows (w w' : World F) : Prop :=
  forall path old, file_content w path = Some old ->
    exists more, file_content w' path = Some (old ++ more).

End Runs.

(** A card that holds an earlier track under the name the sample session
    will use, and a file of another name. *)
Definition used_card : Card :=
  mkCard (<["/track_2024-5-17_5.gpx" := "an earlier track"]>
            (<["/notes.txt" := "keep"]> ∅))
         true 0.

(** Passes of [loop]: the key down with a fix, and the key up with the
    sample sentence on the wire at 9 s. *)
Definition key_down : LoopInput Q :=
  mkLoopInput true sample_fix 5000 true [] sample_fix 5000 5000.

Definition key_up_with_sentence : LoopInput Q :=
  mkLoopInput false sample_fix 9000 true (line_bytes gga_example) sample_fix 9000 9001.

(** * Properties *)

(** ** Strings *)

Section StringFacts.

Lemma append_cons (x : ascii) (a b : string) :
  String x a ++ b = String x (a ++ b).
Proof. reflexivity. Qed.

Lemma append_assoc (a b c : string) : (a ++ b) ++ c = a ++ (b ++ c).
Proof.
  induction a as [|x a IH]; [reflexivity|].
  rewrite !append_cons. f_equal. exact IH.
Qed.

Lemma append_nil_r (a : string) : a ++ "" = a.
Proof.
  induction a as [|x a IH]; [reflexivity|].
  rewrite append_cons. f_equal. exact IH.
Qed.

Lemma length_append (a b : string) :
  String.length (a ++ b) = (String.length a + String.length b)%nat.
Proof.
  induction a as [|x a IH]; [reflexivity|].
  rewrite append_cons. simpl. f_equal. exact IH.
Qed.

End StringFacts.

(** ** Plain text *)

Section PlainText.

Lemma plain_append (a b : string) : plain (a ++ b) = plain a && plain b.
Proof.
  induction a as [|x a IH]; [reflexivity|].
  rewrite append_cons. simpl. rewrite IH. now rewrite andb_assoc.
Qed.

Lemma plain_uint (d : Decimal.uint) : plain (NilEmpty.string_of_uint d) = true.
Proof. induction d; simpl; auto. Qed.

Lemma plain_decimal (n : N) : plain (Arduino.decimal n) = true.
Proof.
  unfold Arduino.decimal, NilZero.string_of_uint.
  destruct (N.to_uint n) eqn:E; try reflexivity; rewrite <- E; apply plain_uint.
Qed.

Lemma plain_zeros (k : nat) : plain (String.concat "" (repeat "0" k)) = true.
Proof.
  induction k as [|k IH]; [reflexivity|].
  destruct k; [reflexivity|].
  change (repeat "0" (S (S k))) with ("0" :: repeat "0" (S k)).
  simpl String.concat. simpl in IH |- *. exact IH.
Qed.

Lemma plain_decimal_pad0 (w : nat) (n : N) : plain (Arduino.decimal_pad0 w n) = true.
Proof.
  unfold Arduino.decimal_pad0. now rewrite plain_append, plain_zeros, plain_decimal.
Qed.

Lemma plain_print_fraction (digits : nat) (r : Q) :
  plain (Rational.print_fraction digits r) = true.
Proof.
  revert r; induction digits as [|d IH]; intros r; [reflexivity|].
  simpl. now rewrite plain_append, plain_decimal, IH.
Qed.

Lemma plain_print (x : Q) (digits : nat) : plain (Rational.print x digits) = true.
Proof.
  unfold Rational.print.
  destruct (Qlt_le_dec 4294967040 x); [reflexivity|].
  destruct (Qlt_le_dec x (-4294967040)); [reflexivity|].
  rewrite !plain_append, plain_decimal, plain_print_fraction.
  destruct (Qlt_le_dec x 0), digits; reflexivity.
Qed.

End PlainText.

(** ** The rational numbers implement the interface *)

#[global] Instance rational_floats : FloatOps Q := {|
  fzero := 0%Q;
  fpositive x := 0 <? Qnum x;
  toFloat := Rational.atof;
  printFloat := Rational.print;
  fpositive_fzero := eq_refl;
  printFloat_plain := plain_print;
|}.

(** A session started from boot at 5 s, on a card that takes writes. *)
Definition recording : World Q :=
  snd (createGPX sample_fix 5000 true (boot fresh_card)).

(** The session of [recording] after a point at 10 s and a stop. *)
Definition stopped_after_point : World Q :=
  snd (stopRecording (loop_gpx sample_fix 10000 10000 recording)).

(** ** Printing to the open file *)

Section PrintFacts.
Context {F : Type} `{FloatOps F}.

Lemma print_print (a b : string) (w : World F) :
  print b (print a w) = print (a ++ b) w.
Proof.
  unfold print, set_card; destruct w as [[path|] ? ? ? ? ? ? ? [files ok n]]; simpl;
    [|reflexivity].
  destruct ok; simpl; [|reflexivity].
  rewrite alter_alter_eq. do 2 f_equal.
  apply alter_ext; intros s _; simpl. apply append_assoc.
Qed.

Lemma print_empty (w : World F) : print "" w = w.
Proof.
  unfold print, set_card; destruct w as [[path|] ? ? ? ? ? ? ? [files ok n]]; simpl;
    [|reflexivity].
  destruct ok; simpl; [|reflexivity].
  rewrite alter_id; [reflexivity | intros; apply append_nil_r].
Qed.

Lemma print_quality (a : string) (w : World F) : quality (print a w) = quality w.
Proof. destruct w as [[?|] ? ? ? ? ? ? ? [? [] ?]]; reflexivity. Qed.

Lemma print_isRecording (a : string) (w : World F) :
  isRecording (print a w) = isRecording w.
Proof. destruct w as [[?|] ? ? ? ? ? ? ? [? [] ?]]; reflexivity. Qed.

Lemma print_gpxFile (a : string) (w : World F) : gpxFile (print a w) = gpxFile w.
Proof. destruct w as [[?|] ? ? ? ? ? ? ? [? [] ?]]; reflexivity. Qed.

Lemma print_lastWrite (a : string) (w : World F) : lastWrite (print a w) = lastWrite w.
Proof. destruct w as [[?|] ? ? ? ? ? ? ? [? [] ?]]; reflexivity. Qed.

Lemma print_filename (a : string) (w : World F) : filename (print a w) = filename w.
Proof. destruct w as [[?|] ? ? ? ? ? ? ? [? [] ?]]; reflexivity. Qed.

Lemma print_sd_ok (a : string) (w : World F) : sd_ok (card (print a w)) = sd_ok (card w).
Proof. destruct w as [[?|] ? ? ? ? ? ? ? [? [] ?]]; reflexivity. Qed.

Lemma print_open_calls (a : string) (w : World F) :
  sd_open_calls (card (print a w)) = sd_open_calls (card w).
Proof. destruct w as [[?|] ? ? ? ? ? ? ? [? [] ?]]; reflexivity. Qed.

Lemma print_set_isRecording (a : string) (b : bool) (w : World F) :
  print a (set_isRecording b w) = set_isRecording b (print a w).
Proof. destruct w as [[?|] ? ? ? ? ? ? ? [? [] ?]]; reflexivity. Qed.

(** A card that refuses writes swallows the text. *)
Lemma print_refused (a : string) (w : World F) :
  sd_ok (card w) = false -> print a w = w.
Proof. unfold print; intros ->; now destruct (gpxFile w). Qed.

(** On a card that takes writes the text lands at the end of the open file. *)
Lemma print_files (a : string) (w : World F) (path : string) :
  gpxFile w = Some path -> sd_ok (card w) = true ->
  sd_files (card (print a w)) = alter (fun s => s ++ a) path (sd_files (card w)).
Proof. unfold print; intros -> ->; reflexivity. Qed.

(** The prints of [writeGPXPoint] amount to one print of the element. *)
Lemma writeGPXPoint_body_print (gps : Snapshot F) (w : World F) :
  writeGPXPoint_body gps w = print (trkpt_text gps (hdop (quality w))) w.
Proof.
  unfold writeGPXPoint_body, seq, flush, println, when.
  unfold trkpt_text, trkpt_open, time_child, hdop_child, number_child, trkpt_close.
  destruct (date_valid gps && time_valid gps), (altitude_valid gps),
    (speed_valid gps), (course_valid gps); unfold id;
    rewrite ?print_print, ?print_quality;
    destruct (fpositive (hdop (quality w))); unfold id;
    rewrite ?print_print; f_equal;
    rewrite ?append_assoc; simpl; rewrite ?append_assoc; reflexivity.
Qed.

Lemma gpx_preamble_print (w : World F) : gpx_preamble w = print preamble_text w.
Proof.
  unfold gpx_preamble, seq, println. rewrite !print_print. f_equal.
Qed.

End PrintFacts.

(** ** The recording session *)

Section SessionFacts.
Context {F : Type} `{FloatOps F}.

Lemma createGPX_active gps now open_ok (w : World F) :
  isRecording w = true -> createGPX gps now open_ok w = (AlreadyActive, w).
Proof. unfold createGPX; now intros ->. Qed.

Lemma createGPX_open_failed gps now (w : World F) :
  isRecording w = false ->
  createGPX gps now false w =
    (OpenFailed,
     set_gpxFile None
       (set_card (mkCard (sd_files (card w)) (sd_ok (card w)) (S (sd_open_calls (card w))))
          (set_filename (track_filename gps now) w))).
Proof. unfold createGPX; now intros ->. Qed.

Lemma createGPX_opened gps now (w : World F) :
  isRecording w = false ->
  createGPX gps now true w =
    (Started,
     set_isRecording true
       (print preamble_text
          (set_gpxFile (Some (track_filename gps now))
             (set_card (mkCard (<[track_filename gps now := ""]> (sd_files (card w)))
                               (sd_ok (card w)) (S (sd_open_calls (card w))))
                (set_filename (track_filename gps now) w))))).
Proof.
  unfold createGPX; intros ->. cbn [SD_open filename set_filename gpxFile set_gpxFile].
  now rewrite gpx_preamble_print.
Qed.

(** [createGPX] reports [Started] exactly from Idle with a successful open. *)
Lemma createGPX_started_iff gps now open_ok (w : World F) :
  fst (createGPX gps now open_ok w) = Started <->
  isRecording w = false /\ open_ok = true.
Proof.
  destruct (isRecording w) eqn:R.
  - rewrite createGPX_active by assumption. simpl. split; [discriminate | intros []; discriminate].
  - destruct open_ok.
    + rewrite createGPX_opened by assumption. simpl. tauto.
    + rewrite createGPX_open_failed by assumption. simpl.
      split; [discriminate | intros []; discriminate].
Qed.

Lemma GPSSMACARD_createGPX_same gps now open_ok (w : World F) :
  GPSSMACARD.createGPX gps now open_ok w = createGPX gps now open_ok w.
Proof. unfold GPSSMACARD.createGPX, createGPX. now destruct (isRecording w). Qed.

Lemma createGPX_lastWrite gps now open_ok (w : World F) :
  lastWrite (snd (createGPX gps now open_ok w)) = lastWrite w.
Proof.
  destruct (isRecording w) eqn:R; [now rewrite createGPX_active|].
  destruct open_ok;
    [rewrite createGPX_opened | rewrite createGPX_open_failed]; try assumption; simpl;
    now rewrite ?print_lastWrite.
Qed.

Lemma writeGPXPoint_spec gps (w : World F) :
  writeGPXPoint gps w =
    if isRecording w && bool_decide (is_Some (gpxFile w))
    then if location_valid gps
         then (Written, print (trkpt_text gps (hdop (quality w))) w)
         else (NoLocation, w)
    else (NotActive, w).
Proof.
  unfold writeGPXPoint. rewrite writeGPXPoint_body_print.
  destruct (isRecording w), (bool_decide (is_Some (gpxFile w))), (location_valid gps);
    reflexivity.
Qed.

Lemma stopRecording_spec (w : World F) :
  stopRecording w =
    if isRecording w && bool_decide (is_Some (gpxFile w))
    then (Stopped, set_isRecording false (set_gpxFile None (print closing_text w)))
    else (StopNotActive, w).
Proof. reflexivity. Qed.

(** [writeGPXPoint] never touches the session flag, the handle, the file
    name or the sample clock. *)
Lemma writeGPXPoint_frame gps (w : World F) :
  let w' := snd (writeGPXPoint gps w) in
  isRecording w' = isRecording w /\ gpxFile w' = gpxFile w /\
  filename w' = filename w /\ lastWrite w' = lastWrite w /\
  quality w' = quality w /\ sd_open_calls (card w') = sd_open_calls (card w).
Proof.
  cbv zeta. rewrite writeGPXPoint_spec.
  destruct (isRecording w && bool_decide (is_Some (gpxFile w))), (location_valid gps);
    simpl; rewrite ?print_isRecording, ?print_gpxFile, ?print_filename,
      ?print_lastWrite, ?print_quality, ?print_open_calls; repeat split.
Qed.

Lemma print_appends (a : string) (w : World F) (path text : string) :
  recording_into w path text -> recording_into (print a w) path (text ++ a).
Proof.
  intros (Hr & Hf & Hn & Hok & Hc). unfold recording_into.
  rewrite print_isRecording, print_gpxFile, print_filename, print_sd_ok.
  repeat split; try assumption.
  unfold file_content in *. rewrite (print_files a w path Hf Hok).
  rewrite lookup_alter. cbn. rewrite decide_True by reflexivity. now rewrite Hc.
Qed.

Lemma set_quality_recording_into q (w : World F) (path text : string) :
  recording_into w path text -> recording_into (set_quality q w) path text.
Proof. now unfold recording_into. Qed.

Lemma createGPX_recording_into gps now (w : World F) :
  isRecording w = false -> sd_ok (card w) = true ->
  recording_into (snd (createGPX gps now true w)) (track_filename gps now) preamble_text.
Proof.
  intros Hidle Hok. rewrite createGPX_opened by assumption. simpl.
  assert (Hopen : recording_into
            (set_isRecording true
               (set_gpxFile (Some (track_filename gps now))
                  (set_card (mkCard (<[track_filename gps now := ""]> (sd_files (card w)))
                                    (sd_ok (card w)) (S (sd_open_calls (card w))))
                     (set_filename (track_filename gps now) w))))
            (track_filename gps now) "").
  { unfold recording_into, file_content. simpl. rewrite lookup_insert_eq. now repeat split. }
  apply (print_appends preamble_text) in Hopen.
  destruct Hopen as (Hr & Hf & Hn & Hk & Hc). unfold recording_into, file_content in *.
  destruct w as [h r fn lg q rp nl lw [files ok n]]; simpl in *.
  unfold print in *; simpl in *. subst ok; simpl in *. now repeat split.
Qed.

Lemma writeGPXPoint_recording_into gps (w : World F) (path text : string) :
  recording_into w path text -> location_valid gps = true ->
  fst (writeGPXPoint gps w) = Written /\
  recording_into (snd (writeGPXPoint gps w)) path (text ++ trkpt_text gps (hdop (quality w))).
Proof.
  intros Hrec Hloc. rewrite writeGPXPoint_spec.
  pose proof Hrec as (Hr & Hf & _). rewrite Hr, Hf, Hloc. simpl.
  split; [reflexivity|]. now apply print_appends.
Qed.

Lemma stopRecording_recording_into (w : World F) (path text : string) :
  recording_into w path text ->
  let s := stopRecording w in
  fst s = Stopped /\ isRecording (snd s) = false /\ gpxFile (snd s) = None /\
  filename (snd s) = path /\ file_content (snd s) path = Some (text ++ closing_text).
Proof.
  intros Hrec. cbv zeta. rewrite stopRecording_spec.
  pose proof (print_appends closing_text w path text Hrec) as (_ & _ & Hn & _ & Hc).
  destruct Hrec as (Hr & Hf & _). rewrite Hr, Hf. simpl. now repeat split.
Qed.

Lemma full_cycle_content gps now open_ok g1 g2 q1 q2 (w0 : World F) :
  fst (createGPX gps now open_ok w0) = Started ->
  sd_ok (card w0) = true ->
  location_valid g1 = true -> location_valid g2 = true ->
  let w1 := snd (createGPX gps now open_ok w0) in
  let a1 := writeGPXPoint g1 (set_quality q1 w1) in
  let a2 := writeGPXPoint g2 (set_quality q2 (snd a1)) in
  let s := stopRecording (snd a2) in
  fst a1 = Written /\ fst a2 = Written /\ fst s = Stopped /\
  isRecording (snd s) = false /\ gpxFile (snd s) = None /\
  file_content (snd s) (filename (snd s)) = Some (two_point_track g1 g2 q1 q2).
Proof.
  intros Hs Hok Hl1 Hl2. apply createGPX_started_iff in Hs as [Hidle ->].
  intros w1 a1 a2 s.
  pose proof (createGPX_recording_into gps now w0 Hidle Hok) as R1. fold w1 in R1.
  apply (set_quality_recording_into q1) in R1.
  destruct (writeGPXPoint_recording_into g1 _ _ _ R1 Hl1) as [W1 R2]. fold a1 in W1, R2.
  apply (set_quality_recording_into q2) in R2.
  destruct (writeGPXPoint_recording_into g2 _ _ _ R2 Hl2) as [W2 R3]. fold a2 in W2, R3.
  destruct (stopRecording_recording_into _ _ _ R3) as (S1 & S2 & S3 & S4 & S5).
  fold s in S1, S2, S3, S4, S5.
  repeat split; try assumption.
  rewrite S4, S5. unfold two_point_track. simpl. now rewrite !append_assoc.
Qed.

End SessionFacts.

(** ** What holds in every state the sketches reach *)

Section Reachable.
Context {F : Type} `{FloatOps F}.

Lemma same_session_invariant (w w' : World F) :
  same_session w w' -> session_invariant w -> session_invariant w'.
Proof.
unfold same_session, session_invariant, file_content.
intros (-> & -> & -> & ->). trivial.
Qed.

Lemma same_session_trans (w1 w2 w3 : World F) :
  same_session w1 w2 -> same_session w2 w3 -> same_session w1 w3.
Proof.
unfold same_session. intros (A1 & A2 & A3 & A4) (B1 & B2 & B3 & B4).
repeat split; congruence.
Qed.

Lemma serial_byte_same_session accept parse (c : ascii) (w : World F) :
  same_session w (snd (serial_byte accept parse c w)).
Proof.
unfold serial_byte, same_session.
destruct (Ascii.eqb c LF); [now destruct (accept (nmeaLine w))|].
now destruct (negb (Ascii.eqb c CR)).
Qed.

Lemma serial_loop_same_session accept parse (bytes : list ascii) (w : World F) :
  same_session w (snd (serial_loop accept parse bytes w)).
Proof.
revert w; induction bytes as [|c rest IH]; intros w; [now unfold same_session|].
simpl. pose proof (serial_byte_same_session accept parse c w) as Hb.
destruct (serial_byte accept parse c w) as [done w1]. simpl in Hb.
specialize (IH w1). destruct (serial_loop accept parse rest w1) as [more w2].
simpl in IH |- *. exact (same_session_trans _ _ _ Hb IH).
Qed.

Lemma print_session_invariant (a : string) (w : World F) :
  session_invariant w -> session_invariant (print a w).
Proof.
unfold session_invariant, file_content.
rewrite print_isRecording, print_gpxFile, print_filename.
destruct (isRecording w); [|trivial]. intros [Hf Hc]. split; [exact Hf|].
unfold print. rewrite Hf. destruct (sd_ok (card w)); [|exact Hc].
simpl. rewrite lookup_alter. cbn. rewrite decide_True by reflexivity.
destruct Hc as [x ->]. now eexists.
Qed.

Lemma createGPX_session_invariant gps now open_ok (w : World F) :
  session_invariant w -> session_invariant (snd (createGPX gps now open_ok w)).
Proof.
intros Hinv. destruct (isRecording w) eqn:R; [now rewrite createGPX_active|].
destruct open_ok.
- rewrite createGPX_opened by assumption. simpl.
  assert (Hopen : session_invariant
            (set_isRecording true
               (set_gpxFile (Some (track_filename gps now))
                  (set_card (mkCard (<[track_filename gps now := ""]> (sd_files (card w)))
                                    (sd_ok (card w)) (S (sd_open_calls (card w))))
                     (set_filename (track_filename gps now) w))))).
  { unfold session_invariant, file_content. simpl. rewrite lookup_insert_eq.
    split; [reflexivity | now eexists]. }
  apply (print_session_invariant preamble_text) in Hopen.
  now rewrite print_set_isRecording in Hopen.
- rewrite createGPX_open_failed by assumption.
  unfold session_invariant. simpl. now rewrite R.
Qed.

Lemma writeGPXPoint_session_invariant gps (w : World F) :
  session_invariant w -> session_invariant (snd (writeGPXPoint gps w)).
Proof.
intros Hinv. rewrite writeGPXPoint_spec.
destruct (isRecording w && bool_decide (is_Some (gpxFile w))), (location_valid gps);
  simpl; auto using print_session_invariant.
Qed.

Lemma stopRecording_session_invariant (w : World F) :
  session_invariant w -> session_invariant (snd (stopRecording w)).
Proof.
intros Hinv. rewrite stopRecording_spec.
destruct (isRecording w && bool_decide (is_Some (gpxFile w))); [reflexivity | exact Hinv].
Qed.

Lemma loop_gpx_session_invariant gps now_gate now_mark (w : World F) :
  session_invariant w -> session_invariant (loop_gpx gps now_gate now_mark w).
Proof.
intros Hinv. unfold loop_gpx.
destruct (isRecording w && (elapsed now_gate (lastWrite w) >? 3000)); [|exact Hinv].
apply (writeGPXPoint_session_invariant gps) in Hinv.
revert Hinv. apply same_session_invariant. now unfold same_session.
Qed.

Lemma Sketch115200_loop_session_invariant (i : LoopInput F) (w : World F) :
  session_invariant w -> session_invariant (Sketch115200.loop i w).
Proof.
intros Hinv. unfold Sketch115200.loop.
apply loop_gpx_session_invariant.
apply (same_session_invariant _ _ (serial_loop_same_session _ _ _ _)).
unfold Sketch115200.loop_key.
apply (same_session_invariant
         (if in_key_r i && negb (rPrev w)
          then if negb (isRecording w)
               then snd (createGPX (in_gps_key i) (in_now_key i) (in_open_ok i) w)
               else snd (stopRecording w)
          else w)); [now unfold same_session|].
destruct (in_key_r i && negb (rPrev w)); [|exact Hinv].
destruct (negb (isRecording w));
  auto using createGPX_session_invariant, stopRecording_session_invariant.
Qed.

Lemma GPSSMACARD_loop_session_invariant (i : LoopInput F) (w : World F) :
  session_invariant w -> session_invariant (GPSSMACARD.loop i w).
Proof.
intros Hinv. unfold GPSSMACARD.loop.
apply loop_gpx_session_invariant.
apply (same_session_invariant _ _ (serial_loop_same_session _ _ _ _)).
unfold GPSSMACARD.loop_key.
destruct (in_key_r i); [|exact Hinv].
destruct (negb (isRecording w)).
- rewrite GPSSMACARD_createGPX_same. now apply createGPX_session_invariant.
- now apply stopRecording_session_invariant.
Qed.

(** Every state either sketch reaches satisfies the session invariant. *)
Lemma reachable_session_invariant (w : World F) :
  reachable Sketch115200.loop w \/ reachable GPSSMACARD.loop w ->
  session_invariant w.
Proof.
intros [Hr | Hr]; induction Hr as [c | i w _ IH | ok w _ IH];
  try reflexivity;
  auto using Sketch115200_loop_session_invariant, GPSSMACARD_loop_session_invariant.
Qed.

End Reachable.

(** ** The sentence assembler *)

Section Assembler.
Context {F : Type} `{FloatOps F}.

Lemma split_on_lf_cons (bytes : list ascii) :
  exists p ps, Spec.split_on_lf bytes = p :: ps.
Proof.
  induction bytes as [|c rest [p [ps IH]]]; simpl; [now eauto|].
  destruct (Ascii.eqb c "010"); [now eauto|]. rewrite IH. now eauto.
Qed.

(** The buffer and the completed lines do not depend on the sentence
    filter or on the parser. *)
Lemma serial_byte_line accept parse (c : ascii) (w : World F) :
  let r := serial_byte accept parse c w in
  if Ascii.eqb c LF then fst r = Some (nmeaLine w) /\ nmeaLine (snd r) = ""
  else if Ascii.eqb c CR then fst r = None /\ nmeaLine (snd r) = nmeaLine w
  else fst r = None /\ nmeaLine (snd r) = nmeaLine w ++ String c "".
Proof.
  unfold serial_byte. cbv zeta.
  destruct (Ascii.eqb c LF); [now destruct (accept (nmeaLine w))|].
  now destruct (Ascii.eqb c CR).
Qed.

(** Whatever is in the buffer first, the pieces of the input are the
    completed lines followed by the buffer that is left. *)
Lemma serial_loop_pieces accept parse (bytes : list ascii) (w : World F) :
  prefix_first (nmeaLine w) (Spec.split_on_lf (Spec.strip_cr bytes)) =
    (fst (serial_loop accept parse bytes w)
       ++ [nmeaLine (snd (serial_loop accept parse bytes w))])%list.
Proof.
  revert w; induction bytes as [|c rest IH]; intros w.
  - simpl. now rewrite append_nil_r.
  - simpl serial_loop.
    pose proof (serial_byte_line accept parse c w) as Hb. cbv zeta in Hb.
    destruct (serial_byte accept parse c w) as [done w1]; simpl in Hb.
    specialize (IH w1).
    destruct (serial_loop accept parse rest w1) as [more w2]; simpl in IH |- *.
    unfold Spec.strip_cr in *. simpl List.filter.
    destruct (Ascii.eqb c LF) eqn:Elf.
    + apply Ascii.eqb_eq in Elf; subst c. destruct Hb as [-> Hbuf].
      simpl. rewrite append_nil_r. f_equal.
      rewrite Hbuf in IH.
      destruct (split_on_lf_cons (List.filter (fun c => negb (Ascii.eqb c "013")) rest))
        as [p [ps E]].
      rewrite E in IH |- *. exact IH.
    + destruct (Ascii.eqb c CR) eqn:Ecr.
      * apply Ascii.eqb_eq in Ecr; subst c. destruct Hb as [-> Hbuf].
        simpl. now rewrite <- Hbuf.
      * destruct Hb as [-> Hbuf]. change CR with "013"%char in Ecr.
        rewrite Ecr. simpl. change LF with "010"%char in Elf. rewrite Elf.
        destruct (split_on_lf_cons (List.filter (fun c => negb (Ascii.eqb c "013")) rest))
          as [p [ps E]].
        rewrite E in IH |- *. rewrite Hbuf in IH. simpl in IH |- *.
        now rewrite append_assoc in IH.
Qed.

End Assembler.

(** ** The GGA field extractor *)

Section ParseFacts.
Context {F : Type} `{FloatOps F}.

Lemma charAt_append (pre : string) (c : ascii) (s : string) :
  Arduino.charAt (pre ++ String c s) (String.length pre) = c.
Proof.
  unfold Arduino.charAt. induction pre as [|x pre IH]; [reflexivity|].
  rewrite append_cons. simpl. exact IH.
Qed.

Lemma delimiters_in_suffix (s pre : string) :
  delimiters_in (pre ++ s) (String.length s) (String.length pre) = count_delimiters s.
Proof.
  revert pre; induction s as [|c s IH]; intros pre; [reflexivity|].
  simpl. rewrite charAt_append. f_equal.
  specialize (IH (pre ++ String c "")).
  rewrite append_assoc, length_append in IH. simpl in IH.
  now rewrite Nat.add_1_r in IH.
Qed.

Lemma delimiters_in_nonneg gga n i : 0 <= delimiters_in gga n i.
Proof.
  revert i; induction n as [|n IH]; intros i; simpl; [lia|].
  specialize (IH (S i)). destruct (is_delimiter _); lia.
Qed.

(** As long as the field counter stays below 6 the loop assigns nothing. *)
Lemma parseGGA_loop_few_fields hdop_field gga n i lastIndex field (q : Quality F) :
  6 <= hdop_field ->
  field + delimiters_in gga n i < 6 ->
  parseGGA_loop hdop_field gga n i lastIndex field q = q.
Proof.
  intros Hf. revert i lastIndex field q.
  induction n as [|n IH]; intros i lastIndex field q Hlt; [reflexivity|].
  simpl in Hlt |- *. pose proof (delimiters_in_nonneg gga n (S i)).
  destruct (is_delimiter (Arduino.charAt gga i)).
  - destruct (Z.eqb_spec (field + 1) 6); [lia|].
    destruct (Z.eqb_spec (field + 1) hdop_field); [lia|].
    destruct (Z.gtb_spec (field + 1) 9); [lia|].
    apply IH. lia.
  - apply IH. lia.
Qed.

(** In the 115200 sketch a sentence with fewer than six delimiters, so
    with fewer than six fields however they are counted, gives zeros
    whatever the globals held before. *)
Lemma Sketch115200_parseGGA_short (gga : string) (q : Quality F) :
  count_delimiters gga < 6 ->
  Sketch115200.parseGGA gga q = mkQuality 0 fzero.
Proof.
  intros Hlt. unfold Sketch115200.parseGGA.
  apply parseGGA_loop_few_fields; [lia|].
  pose proof (delimiters_in_suffix gga "") as E.
  change (delimiters_in gga (String.length gga) 0 = count_delimiters gga) in E.
  rewrite E. lia.
Qed.

(** The 115200 sketch never looks at the old values. *)
Lemma Sketch115200_parseGGA_forgets (gga : string) (q q' : Quality F) :
  Sketch115200.parseGGA gga q = Sketch115200.parseGGA gga q'.
Proof. reflexivity. Qed.

(** GPSSMACARD.ino keeps them on a short sentence. *)
Lemma GPSSMACARD_parseGGA_short (gga : string) (q : Quality F) :
  count_delimiters gga < 6 ->
  GPSSMACARD.parseGGA gga q = q.
Proof.
  intros Hlt. unfold GPSSMACARD.parseGGA.
  apply parseGGA_loop_few_fields; [lia|].
  pose proof (delimiters_in_suffix gga "") as E.
  change (delimiters_in gga (String.length gga) 0 = count_delimiters gga) in E.
  rewrite E. lia.
Qed.

(** Text that does not start a number reads as 0. *)
Lemma toInt_not_a_number (c : ascii) (r : string) :
  Arduino.isspace c = false -> Arduino.isdigit c = false ->
  c <> "+"%char -> c <> "-"%char ->
  Arduino.toInt (String c r) = 0.
Proof.
  intros Hs Hd Hp Hm. unfold Arduino.toInt. simpl. rewrite Hs.
  assert (E : Arduino.leading_digits (String c r) 0 = 0) by (simpl; now rewrite Hd).
  destruct (Ascii.eqb_spec c "-"); [contradiction|].
  destruct (Ascii.eqb_spec c "+"); [contradiction|].
  destruct c as [[] [] [] [] [] [] [] []]; try reflexivity; try contradiction;
    try discriminate; simpl in *; try (now rewrite E).
Qed.

Lemma toInt_empty : Arduino.toInt "" = 0.
Proof. reflexivity. Qed.

(** The field texts the two sketches convert on the sample sentence. *)
Lemma gga_example_fields (q : Quality F) :
  Sketch115200.parseGGA gga_example q = mkQuality (Arduino.toInt "E") (toFloat "08") /\
  GPSSMACARD.parseGGA gga_example q = mkQuality (Arduino.toInt "E") (toFloat "0.9").
Proof. split; reflexivity. Qed.

(** What one serial byte does to the fix quality in the 115200 sketch. *)
Lemma Sketch115200_feed_quality (c : ascii) (w : World F) :
  quality (snd (Sketch115200.feed c w)) =
    if Ascii.eqb c LF
       && (String.prefix "$GPGGA" (nmeaLine w) || String.prefix "$GNGGA" (nmeaLine w))
    then Sketch115200.parseGGA (nmeaLine w) (quality w)
    else quality w.
Proof.
  unfold Sketch115200.feed, serial_byte, Sketch115200.accepts, Arduino.startsWith.
  destruct (Ascii.eqb c LF); simpl.
  - now destruct (String.prefix "$GPGGA" (nmeaLine w) || String.prefix "$GNGGA" (nmeaLine w)).
  - now destruct (negb (Ascii.eqb c CR)).
Qed.

Lemma GPSSMACARD_feed_quality (c : ascii) (w : World F) :
  quality (snd (GPSSMACARD.feed c w)) =
    if Ascii.eqb c LF && String.prefix "$GPGGA" (nmeaLine w)
    then GPSSMACARD.parseGGA (nmeaLine w) (quality w)
    else quality w.
Proof.
  unfold GPSSMACARD.feed, serial_byte, GPSSMACARD.accepts, Arduino.startsWith.
  destruct (Ascii.eqb c LF); simpl.
  - now destruct (String.prefix "$GPGGA" (nmeaLine w)).
  - now destruct (negb (Ascii.eqb c CR)).
Qed.

End ParseFacts.

(** ** The tags of a track file *)

Section XmlFacts.
Context {F : Type} `{FloatOps F}.

Lemma plain_tag_safe (s : string) : plain s = true -> Xml.tag_safe s = true.
Proof.
induction s as [|c s IH]; [reflexivity|]. simpl. unfold is_markup.
destruct (Ascii.eqb c "<"), (Ascii.eqb c ">"); simpl; try discriminate;
  try (rewrite ?orb_true_r; discriminate).
intros Hp. apply andb_true_iff in Hp as [_ Hp]. auto.
Qed.

Lemma tag_safe_append (a b : string) :
  Xml.tag_safe (a ++ b) = Xml.tag_safe a && Xml.tag_safe b.
Proof.
induction a as [|x a IH]; [reflexivity|].
rewrite append_cons. simpl. rewrite IH. now rewrite !andb_assoc.
Qed.

(** Inside a tag, safe text up to the closing bracket is the rest of the tag. *)
Lemma tags_from_inside (b acc rest : string) :
  Xml.tag_safe b = true ->
  Xml.tags_from (Some acc) (b ++ String ">" rest) =
    cons (acc ++ b) <$> Xml.tags_from None rest.
Proof.
revert acc; induction b as [|c b IH]; intros acc Hs.
- simpl. now rewrite append_nil_r.
- rewrite append_cons. simpl in Hs |- *.
  destruct (Ascii.eqb c "<"); [discriminate|].
  destruct (Ascii.eqb c ">"); [discriminate|]. simpl in Hs.
  rewrite IH by assumption. now rewrite append_assoc.
Qed.

Lemma emits_text (p : string) : plain p = true -> emits p [].
Proof.
intros Hp rest. induction p as [|c p IH].
- change ("" ++ rest) with rest. now destruct (Xml.tags_from None rest).
- rewrite append_cons. simpl in Hp |- *. unfold is_markup in Hp.
  destruct (Ascii.eqb c "<"); [discriminate|].
  destruct (Ascii.eqb c "&"); [now destruct (Ascii.eqb c ">")|].
  apply andb_true_iff in Hp as [_ Hp]. auto.
Qed.

Lemma emits_tag (body : string) :
  Xml.tag_safe body = true -> emits ("<" ++ body ++ ">") [body].
Proof.
intros Hs rest. rewrite !append_assoc.
change (Xml.tags_from None ("<" ++ body ++ ">" ++ rest))
  with (Xml.tags_from (Some "") (body ++ String ">" rest)).
now rewrite tags_from_inside.
Qed.

Lemma emits_app (a b : string) (ta tb : list string) :
  emits a ta -> emits b tb -> emits (a ++ b) (ta ++ tb)%list.
Proof.
intros Ha Hb rest. rewrite append_assoc, Ha, Hb.
destruct (Xml.tags_from None rest); simpl; [|reflexivity].
now rewrite <- app_assoc.
Qed.

Lemma emits_crlf : emits Arduino.CRLF [].
Proof. now apply emits_text. Qed.

Lemma emits_trkpt_open (gps : Snapshot F) : emits (trkpt_open gps) [trkpt_tag gps].
Proof.
assert (Hs : Xml.tag_safe (trkpt_tag gps) = true).
{ unfold trkpt_tag.
  rewrite !tag_safe_append, !(plain_tag_safe _ (printFloat_plain _ _)). reflexivity. }
pose proof (emits_app _ _ _ _ (emits_tag _ Hs) emits_crlf) as E.
intros rest. specialize (E rest).
unfold trkpt_open, trkpt_tag in *. rewrite !append_assoc in *. exact E.
Qed.

Lemma plain_timestamp (gps : Snapshot F) : plain (timestamp gps) = true.
Proof. unfold timestamp. now rewrite !plain_append, !plain_decimal_pad0. Qed.

Lemma emits_time_child (gps : Snapshot F) : emits (time_child gps) ["time"; "/time"].
Proof.
assert (Hv : plain (if date_valid gps && time_valid gps then timestamp gps else "") = true).
{ destruct (date_valid gps && time_valid gps); [apply plain_timestamp | reflexivity]. }
pose proof (emits_app _ _ _ _ (emits_tag "time" eq_refl)
             (emits_app _ _ _ _ (emits_text _ Hv)
                (emits_app _ _ _ _ (emits_tag "/time" eq_refl) emits_crlf))) as E.
intros rest. specialize (E rest). unfold time_child.
rewrite !append_assoc in *. exact E.
Qed.

Lemma emits_number_child (name : string) (present : bool) (x : F) (digits : nat) :
  Xml.tag_safe name = true ->
  emits (number_child name present x digits)
        (if present then [name; "/" ++ name] else []).
Proof.
intros Hs. unfold number_child. destruct present; [|now apply emits_text].
assert (Hs' : Xml.tag_safe ("/" ++ name) = true) by exact Hs.
pose proof (emits_app _ _ _ _ (emits_tag name Hs)
             (emits_app _ _ _ _ (emits_text _ (printFloat_plain x digits))
                (emits_app _ _ _ _ (emits_tag _ Hs') emits_crlf))) as E.
intros rest. specialize (E rest). rewrite !append_assoc in *. exact E.
Qed.

Lemma emits_trkpt_text (gps : Snapshot F) (h : F) :
  emits (trkpt_text gps h) (point_tags gps h).
Proof.
unfold trkpt_text, point_tags, hdop_child.
repeat apply emits_app;
  try (apply emits_number_child; reflexivity).
- apply emits_trkpt_open.
- apply emits_time_child.
- exact (emits_app _ _ _ _ (emits_tag "/trkpt" eq_refl) emits_crlf).
Qed.

Lemma emits_preamble :
  emits preamble_text
    ["?xml version='1.0' encoding='UTF-8'?"; "gpx version='1.1'"; "trk"; "trkseg"].
Proof.
exact (emits_app _ _ _ _ (emits_tag "?xml version='1.0' encoding='UTF-8'?" eq_refl)
        (emits_app _ _ _ _ emits_crlf
           (emits_app _ _ _ _ (emits_tag "gpx version='1.1'" eq_refl)
              (emits_app _ _ _ _ emits_crlf
                 (emits_app _ _ _ _ (emits_tag "trk" eq_refl)
                    (emits_app _ _ _ _ (emits_tag "trkseg" eq_refl) emits_crlf)))))).
Qed.

Lemma emits_closing : emits closing_text ["/trkseg"; "/trk"; "/gpx"].
Proof.
exact (emits_app _ _ _ _ (emits_tag "/trkseg" eq_refl)
        (emits_app _ _ _ _ (emits_tag "/trk" eq_refl)
           (emits_app _ _ _ _ (emits_tag "/gpx" eq_refl) emits_crlf))).
Qed.

Lemma two_point_track_tags (g1 g2 : Snapshot F) (q1 q2 : Quality F) :
  Xml.tags_from None (two_point_track g1 g2 q1 q2) =
    Some (["?xml version='1.0' encoding='UTF-8'?"; "gpx version='1.1'"; "trk"; "trkseg"]
            ++ point_tags g1 (hdop q1) ++ point_tags g2 (hdop q2)
            ++ ["/trkseg"; "/trk"; "/gpx"])%list.
Proof.
pose proof (emits_app _ _ _ _ emits_preamble
             (emits_app _ _ _ _ (emits_trkpt_text g1 (hdop q1))
                (emits_app _ _ _ _ (emits_trkpt_text g2 (hdop q2)) emits_closing))) as E.
specialize (E ""). rewrite append_nil_r in E. unfold two_point_track.
rewrite E. simpl. now rewrite !app_nil_r.
Qed.

End XmlFacts.

(** ** The nesting of a track file *)

Section NestingFacts.
Context {F : Type} `{FloatOps F}.

Lemma closes_nil (st : list string) : closes st [] [].
Proof. intros rest. simpl. now destruct (Xml.paths_from st rest) as [[x s]|]. Qed.

Lemma closes_app st a b pa pb :
  closes st a pa -> closes st b pb -> closes st (a ++ b) (pa ++ pb).
Proof.
intros Ha Hb rest. rewrite <- app_assoc, Ha, Hb.
destruct (Xml.paths_from st rest) as [[x s]|]; simpl; [|reflexivity].
now rewrite <- app_assoc.
Qed.

Lemma closes_element st (n : string) inner ps :
  closes (n :: st) inner ps ->
  closes st (Xml.Opening n :: inner ++ [Xml.Closing n]) ((n :: st) :: ps).
Proof.
intros Hi rest. simpl. rewrite <- app_assoc, Hi. simpl.
rewrite String.eqb_refl.
now destruct (Xml.paths_from st rest) as [[x s]|].
Qed.

Lemma closes_leaf st (n : string) :
  closes st [Xml.Opening n; Xml.Closing n] [n :: st].
Proof. exact (closes_element st n [] [] (closes_nil _)). Qed.

Lemma closes_optional (b : bool) st tags ps :
  closes st tags ps -> closes st (if b then tags else []) (if b then ps else []).
Proof. destruct b; [trivial | intros _; apply closes_nil]. Qed.

Lemma point_tags_classified (gps : Snapshot F) (h : F) :
  map Xml.classify (point_tags gps h) =
    Xml.Opening "trkpt"
      :: ([Xml.Opening "time"; Xml.Closing "time"]
            ++ (if altitude_valid gps then [Xml.Opening "ele"; Xml.Closing "ele"] else [])
            ++ (if speed_valid gps then [Xml.Opening "speed"; Xml.Closing "speed"] else [])
            ++ (if course_valid gps then [Xml.Opening "course"; Xml.Closing "course"] else [])
            ++ (if fpositive h then [Xml.Opening "hdop"; Xml.Closing "hdop"] else []))
      ++ [Xml.Closing "trkpt"].
Proof.
unfold point_tags.
destruct (altitude_valid gps), (speed_valid gps), (course_valid gps), (fpositive h);
  reflexivity.
Qed.

Lemma closes_point (gps : Snapshot F) (h : F) :
  closes ["trkseg"; "trk"; "gpx"] (map Xml.classify (point_tags gps h)) (point_paths gps h).
Proof.
rewrite point_tags_classified. unfold point_paths.
apply (closes_element ["trkseg"; "trk"; "gpx"] "trkpt").
repeat apply closes_app; try apply closes_optional; apply closes_leaf.
Qed.

Lemma paths_from_track_open (rest : list Xml.Tag) :
  Xml.paths_from []
    (Xml.Declaration :: Xml.Opening "gpx" :: Xml.Opening "trk" :: Xml.Opening "trkseg" :: rest)
  = prepend_paths track_paths (Xml.paths_from ["trkseg"; "trk"; "gpx"] rest).
Proof.
simpl. now destruct (Xml.paths_from ["trkseg"; "trk"; "gpx"] rest) as [[ps st]|].
Qed.

Lemma two_point_track_elements (g1 g2 : Snapshot F) (q1 q2 : Quality F) :
  Xml.elements (two_point_track g1 g2 q1 q2) =
    Some (track_paths ++ point_paths g1 (hdop q1) ++ point_paths g2 (hdop q2))%list.
Proof.
unfold Xml.elements. rewrite two_point_track_tags.
rewrite !map_app.
change (map Xml.classify
          ["?xml version='1.0' encoding='UTF-8'?"; "gpx version='1.1'"; "trk"; "trkseg"] ++ ?r)%list
  with (Xml.Declaration :: Xml.Opening "gpx" :: Xml.Opening "trk" :: Xml.Opening "trkseg" :: r).
rewrite paths_from_track_open.
rewrite (closes_point g1), (closes_point g2). simpl.
now rewrite !app_nil_r.
Qed.

Lemma point_paths_one_trkpt (gps : Snapshot F) (h : F) :
  List.filter is_trkpt (point_paths gps h) = [trkpt_path].
Proof.
unfold point_paths.
destruct (altitude_valid gps), (speed_valid gps), (course_valid gps), (fpositive h);
  reflexivity.
Qed.

End NestingFacts.

(** * The claims *)

Section Claims.
Context {F : Type} `{FloatOps F}.

(** C1. Starting with success on a card that takes writes, two calls of
    [writeGPXPoint] with valid locations (the globals hold [q1] at the first
    and [q2] at the second) and a stop all take their writing branch, and
    leave in the file the preamble, the two [<trkpt>] elements and the
    closing line, in this order and nothing else.  Read back, that text is
    well nested: [gpx], in it [trk], in it [trkseg], and in it two [trkpt]
    elements with their children; no other [trkpt] occurs. *)
Theorem full_cycle_is_two_point_track gps now open_ok g1 g2 q1 q2 (w0 : World F) :
  fst (createGPX gps now open_ok w0) = Started ->
  sd_ok (card w0) = true ->
  location_valid g1 = true -> location_valid g2 = true ->
  let w1 := snd (createGPX gps now open_ok w0) in
  let a1 := writeGPXPoint g1 (set_quality q1 w1) in
  let a2 := writeGPXPoint g2 (set_quality q2 (snd a1)) in
  let s := stopRecording (snd a2) in
  (fst a1 = Written /\ fst a2 = Written /\ fst s = Stopped) /\
  file_content (snd s) (filename (snd s)) =
    Some (preamble_text ++ trkpt_text g1 (hdop q1) ++ trkpt_text g2 (hdop q2)
            ++ closing_text) /\
  Xml.elements (preamble_text ++ trkpt_text g1 (hdop q1) ++ trkpt_text g2 (hdop q2)
                  ++ closing_text) =
    Some (track_paths ++ point_paths g1 (hdop q1) ++ point_paths g2 (hdop q2))%list /\
  List.filter is_trkpt
    (track_paths ++ point_paths g1 (hdop q1) ++ point_paths g2 (hdop q2))%list
    = [trkpt_path; trkpt_path].
Proof.
intros Hs Hok Hl1 Hl2 w1 a1 a2 s.
destruct (full_cycle_content gps now open_ok g1 g2 q1 q2 w0 Hs Hok Hl1 Hl2)
  as (W1 & W2 & S1 & _ & _ & Hc).
repeat split; try assumption.
- apply two_point_track_elements.
- rewrite !List.filter_app, !point_paths_one_trkpt. reflexivity.
Qed.

(** C6 (amended). Fed to the assembler of either sketch with an empty
    buffer, a byte sequence splits on its line feeds, carriage returns
    removed, into the completed lines, in order, and one last piece: the
    text after the last line feed, which is not handed out but stays in
    the buffer. *)
Theorem completed_lines_are_terminated_pieces (bytes : list ascii) (w : World F) :
  nmeaLine w = "" ->
  Spec.split_on_lf (Spec.strip_cr bytes) =
    (fst (Sketch115200.serial bytes w)
       ++ [nmeaLine (snd (Sketch115200.serial bytes w))])%list /\
  Spec.split_on_lf (Spec.strip_cr bytes) =
    (fst (GPSSMACARD.serial bytes w)
       ++ [nmeaLine (snd (GPSSMACARD.serial bytes w))])%list.
Proof.
  intros Hempty. unfold Sketch115200.serial, GPSSMACARD.serial.
  rewrite <- !serial_loop_pieces, Hempty.
  destruct (split_on_lf_cons (Spec.strip_cr bytes)) as [p [ps ->]].
  now split.
Qed.

(** C8. A second [createGPX] right after a successful one does nothing:
    it takes the AlreadyActive branch and hands back the very same state,
    so no further [SD.open] is made, no second preamble is written, and
    the one handle the sketch holds stays open on the file of the first
    call.  This holds for the [createGPX] of both sketches. *)
Theorem second_start_is_noop gps now open_ok gps' now' open_ok' (w : World F) :
  fst (createGPX gps now open_ok w) = Started ->
  let w1 := snd (createGPX gps now open_ok w) in
  createGPX gps' now' open_ok' w1 = (AlreadyActive, w1) /\
  GPSSMACARD.createGPX gps' now' open_ok' w1 = (AlreadyActive, w1) /\
  gpxFile w1 = Some (filename w1) /\
  sd_open_calls (card w1) = S (sd_open_calls (card w)).
Proof.
  intros Hs w1. apply createGPX_started_iff in Hs as [Hidle ->].
  assert (Hrec : isRecording w1 = true).
  { subst w1. now rewrite createGPX_opened. }
  rewrite GPSSMACARD_createGPX_same, createGPX_active by assumption.
  repeat split; subst w1; rewrite createGPX_opened by assumption; simpl.
  - now rewrite print_gpxFile, print_filename.
  - now rewrite print_open_calls.
Qed.

(** C4 (amended). A write the card refuses does not end the session:
    [writeGPXPoint] hands back the state as it was, still recording, and
    so does the block of [loop] that calls it, whatever the clock says. *)
Theorem write_failure_leaves_session_active gps now_gate now_mark (w : World F) :
  isRecording w = true -> sd_ok (card w) = false ->
  snd (writeGPXPoint gps w) = w /\
  isRecording (loop_gpx gps now_gate now_mark w) = true.
Proof.
  intros Hrec Hbad.
  assert (Hw : snd (writeGPXPoint gps w) = w).
  { rewrite writeGPXPoint_spec.
    destruct (isRecording w && bool_decide (is_Some (gpxFile w))), (location_valid gps);
      simpl; auto using print_refused. }
  split; [exact Hw|].
  unfold loop_gpx. rewrite Hw.
  destruct (isRecording w && (elapsed now_gate (lastWrite w) >? 3000)); exact Hrec.
Qed.

(** C5 (amended). With an invalid location the block of [loop] that writes
    points leaves the card alone, but it still stores the clock in
    [lastWrite] whenever more than 3000 ms have passed: the skipped point
    starts a new interval. *)
Theorem invalid_location_skips_point_but_marks_clock
    gps now_gate now_mark (w : World F) :
  isRecording w = true -> location_valid gps = false ->
  let w' := loop_gpx gps now_gate now_mark w in
  card w' = card w /\
  snd (writeGPXPoint gps w) = w /\
  lastWrite w' =
    if elapsed now_gate (lastWrite w) >? 3000 then now_mark else lastWrite w.
Proof.
  intros Hrec Hloc w'.
  assert (Hw : snd (writeGPXPoint gps w) = w).
  { rewrite writeGPXPoint_spec, Hloc.
    now destruct (isRecording w && bool_decide (is_Some (gpxFile w))). }
  subst w'. unfold loop_gpx. rewrite Hw, Hrec. simpl.
  now destruct (elapsed now_gate (lastWrite w) >? 3000).
Qed.

(** C7 (amended). [createGPX] leaves [lastWrite] as it finds it.  A session
    started within 3000 ms of the last stored clock value (0 after boot,
    else the mark of an earlier session) therefore gets no point until that
    interval is over, valid fix or not. *)
Theorem start_keeps_sample_clock gps now open_ok gps' now_gate now_mark (w : World F) :
  elapsed now_gate (lastWrite w) <= 3000 ->
  let w1 := snd (createGPX gps now open_ok w) in
  lastWrite w1 = lastWrite w /\ loop_gpx gps' now_gate now_mark w1 = w1.
Proof.
  intros Hwait w1. split; [apply createGPX_lastWrite|].
  unfold loop_gpx. subst w1. rewrite createGPX_lastWrite.
  replace (elapsed now_gate (lastWrite w) >? 3000) with false
    by (symmetry; rewrite Z.gtb_ltb; apply Z.ltb_ge; exact Hwait).
  now rewrite andb_false_r.
Qed.

(** C10. While recording, a call of [writeGPXPoint] with a valid location
    takes the writing branch whatever the globals [fixQuality] and [hdop]
    hold, and on a card that takes writes the whole [<trkpt>] element lands
    at the end of the session's file.  [fixQuality] has no part in the text;
    [hdop] decides on the [<hdop>] child alone, which is left out when
    [hdop] is not above zero, as for the zero [parseGGA] resets it to. *)
Theorem trkpt_written_whatever_quality gps (q : Quality F) (w : World F) :
  session_invariant w -> isRecording w = true ->
  location_valid gps = true -> sd_ok (card w) = true ->
  let a := writeGPXPoint gps (set_quality q w) in
  fst a = Written /\
  (exists old,
     file_content w (filename w) = Some old /\
     file_content (snd a) (filename w) = Some (old ++ trkpt_text gps (hdop q))) /\
  trkpt_text gps (hdop q) =
    trkpt_open gps ++ time_child gps
      ++ number_child "ele" (altitude_valid gps) (meters gps) 2
      ++ number_child "speed" (speed_valid gps) (kmph gps) 2
      ++ number_child "course" (course_valid gps) (deg gps) 2
      ++ (if fpositive (hdop q)
          then "<hdop>" ++ printFloat (hdop q) 1 ++ "</hdop>" ++ Arduino.CRLF
          else "")
      ++ trkpt_close /\
  hdop_child (F := F) fzero = "".
Proof.
intros Hinv Hrec Hloc Hok a.
unfold session_invariant in Hinv. rewrite Hrec in Hinv.
destruct Hinv as [Hfile [old Hold]].
assert (R : recording_into (set_quality q w) (filename w) old) by now repeat split.
destruct (writeGPXPoint_recording_into gps _ _ _ R Hloc) as [Hw (_ & _ & _ & _ & Hc)].
fold a in Hw, Hc. split; [exact Hw|]. split; [|split].
- exists old. split; [exact Hold | exact Hc].
- reflexivity.
- unfold hdop_child, number_child. now rewrite fpositive_fzero.
Qed.

End Claims.

(** ** The sketches run on sample input *)

(** C2 (the code on the sentence of the claim). Both sketches count the
    sentence name "$GPGGA" as field 1.  Field 6 is then the hemisphere "E",
    which reads as 0, not the fix quality 1; the 115200 sketch takes [hdop]
    from field 8, the satellite count "08", and GPSSMACARD.ino from field 9,
    the dilution "0.9". *)
Theorem gga_example_parse (q : Quality Q) :
  Sketch115200.parseGGA gga_example q = mkQuality 0 8%Q /\
  GPSSMACARD.parseGGA gga_example q = mkQuality 0 (9 # 10)%Q.
Proof. split; vm_compute; reflexivity. Qed.

(** C3 (the code on a short sentence). After the sample sentence the
    truncated sentence "$GPGGA,123520" leaves the dilution 0.9 of the
    sentence before it in GPSSMACARD.ino, whose [parseGGA] clears nothing;
    the 115200 sketch gives zeros on the same bytes. *)
Theorem GPSSMACARD_short_sentence_keeps_stale_values :
  GPSSMACARD.parseGGA "$GPGGA,123520" (mkQuality 0 (9 # 10)%Q) = mkQuality 0 (9 # 10)%Q /\
  quality (snd (GPSSMACARD.serial
                  (line_bytes gga_example ++ line_bytes "$GPGGA,123520")%list
                  (boot fresh_card)))
    = mkQuality 0 (9 # 10)%Q /\
  quality (snd (Sketch115200.serial
                  (line_bytes gga_example ++ line_bytes "$GPGGA,123520")%list
                  (boot fresh_card)))
    = mkQuality 0 0%Q.
Proof. repeat split; vm_compute; reflexivity. Qed.

(** C9 (the code on a GNGGA sentence). GPSSMACARD.ino tests for "$GPGGA"
    alone: a "$GNGGA" sentence that follows the sample sentence is not
    parsed, [lastGGA] and the dilution stay those of the sample sentence.
    The 115200 sketch parses it. *)
Theorem GPSSMACARD_ignores_GNGGA :
  GPSSMACARD.accepts gn_example = false /\
  Sketch115200.accepts gn_example = true /\
  lastGGA (snd (GPSSMACARD.serial (line_bytes gga_example ++ line_bytes gn_example)%list
                  (boot (F := Q) fresh_card)))
    = gga_example /\
  lastGGA (snd (Sketch115200.serial (line_bytes gga_example ++ line_bytes gn_example)%list
                  (boot (F := Q) fresh_card)))
    = gn_example /\
  GPSSMACARD.parseGGA gn_example (mkQuality 0 (9 # 10)%Q) = mkQuality 0 (3 # 2)%Q /\
  quality (snd (GPSSMACARD.serial (line_bytes gga_example ++ line_bytes gn_example)%list
                  (boot fresh_card)))
    = mkQuality 0 (9 # 10)%Q.
Proof. repeat split; vm_compute; reflexivity. Qed.

(** C4 fails as stated: with the card refusing writes, [writeGPXPoint] on the
    session of [recording] leaves it recording. *)
Lemma write_failure_session_goes_on :
  isRecording (set_sd_ok false recording) = true /\
  sd_ok (card (set_sd_ok false recording)) = false /\
  isRecording (snd (writeGPXPoint sample_fix (set_sd_ok false recording))) = true /\
  ~ write_failure_ends_session (F := Q).
Proof.
  refine (conj eq_refl (conj eq_refl (conj eq_refl _))).
  intros Hc.
  specialize (Hc sample_fix (set_sd_ok false recording) eq_refl eq_refl).
  vm_compute in Hc. discriminate.
Qed.

(** C5 fails as stated: recording since boot, with no location at 5 s, the
    pass stores 5001 in [lastWrite], which was 0. *)
Lemma skipped_point_moves_clock :
  isRecording recording = true /\ location_valid no_fix = false /\
  lastWrite recording = 0 /\
  lastWrite (loop_gpx no_fix 5000 5001 recording) = 5001 /\
  ~ skipped_point_keeps_clock (F := Q).
Proof.
  refine (conj eq_refl (conj eq_refl (conj eq_refl (conj eq_refl _)))).
  intros Hc.
  destruct (Hc no_fix 5000 5001 recording eq_refl eq_refl) as [_ Hc'].
  vm_compute in Hc'. discriminate.
Qed.

(** C6 fails as stated: the byte "G" alone completes no line, while
    splitting it on line feeds gives the piece "G". *)
Lemma unterminated_piece_not_returned :
  fst (Sketch115200.serial ["G"%char] (boot (F := Q) fresh_card)) = [] /\
  Spec.split_on_lf (Spec.strip_cr ["G"%char]) = ["G"] /\
  ~ completed_lines_are_all_pieces (F := Q).
Proof.
  refine (conj eq_refl (conj eq_refl _)).
  intros Hc.
  specialize (Hc ["G"%char] (boot fresh_card) eq_refl).
  vm_compute in Hc. discriminate.
Qed.

(** C7 fails as stated: a session stopped after a point at 10 s and started
    again at 10.4 s gets no point at 10.5 s, valid fix or not. *)
Lemma restart_waits_for_old_interval :
  lastWrite stopped_after_point = 10000 /\
  fst (createGPX sample_fix 10400 true stopped_after_point) = Started /\
  lastWrite (snd (createGPX sample_fix 10400 true stopped_after_point)) = 10000 /\
  card (loop_gpx sample_fix 10500 10500
          (snd (createGPX sample_fix 10400 true stopped_after_point)))
    = card (snd (createGPX sample_fix 10400 true stopped_after_point)) /\
  ~ start_resets_sample_clock (F := Q).
Proof.
  refine (conj eq_refl (conj eq_refl (conj eq_refl (conj _ _)))).
  - vm_compute. reflexivity.
  - intros Hc.
    specialize (Hc sample_fix sample_fix 10400 10500 10500 stopped_after_point
                   eq_refl eq_refl eq_refl).
    apply Hc. vm_compute. reflexivity.
Qed.

(** ** The theorems with hypotheses, at sample inputs *)

Lemma full_cycle_is_two_point_track_witness :
  fst (createGPX sample_fix 5000 true (boot fresh_card)) = Started /\
  sd_ok (card (boot (F := Q) fresh_card)) = true /\
  location_valid sample_fix = true /\
  file_content
    (snd (stopRecording
            (snd (writeGPXPoint sample_fix
                    (set_quality (mkQuality 0 0%Q)
                       (snd (writeGPXPoint sample_fix
                               (set_quality (mkQuality 1 (9 # 10)%Q) recording))))))))
    "/track_2024-5-17_5.gpx"
    = Some (two_point_track sample_fix sample_fix (mkQuality 1 (9 # 10)%Q) (mkQuality 0 0%Q)).
Proof.
refine (conj eq_refl (conj eq_refl (conj eq_refl _))).
exact (proj1 (proj2 (full_cycle_is_two_point_track sample_fix 5000 true
                       sample_fix sample_fix (mkQuality 1 (9 # 10)%Q) (mkQuality 0 0%Q)
                       (boot fresh_card) eq_refl eq_refl eq_refl eq_refl))).
Defined.

Lemma completed_lines_are_terminated_pieces_witness :
  nmeaLine (boot (F := Q) fresh_card) = "" /\
  Spec.split_on_lf (Spec.strip_cr (line_bytes "$GPGGA,1" ++ ["$"; "G"]%char)%list) =
    (fst (Sketch115200.serial (line_bytes "$GPGGA,1" ++ ["$"; "G"]%char)%list
            (boot (F := Q) fresh_card))
       ++ [nmeaLine (snd (Sketch115200.serial (line_bytes "$GPGGA,1" ++ ["$"; "G"]%char)%list
                            (boot (F := Q) fresh_card)))])%list.
Proof.
refine (conj eq_refl _).
exact (proj1 (completed_lines_are_terminated_pieces
                (line_bytes "$GPGGA,1" ++ ["$"; "G"]%char)%list
                (boot fresh_card) eq_refl)).
Defined.

Lemma second_start_is_noop_witness :
  fst (createGPX sample_fix 5000 true (boot fresh_card)) = Started /\
  createGPX no_fix 5010 true recording = (AlreadyActive, recording).
Proof.
refine (conj eq_refl _).
exact (proj1 (second_start_is_noop sample_fix 5000 true no_fix 5010 true
                (boot fresh_card) eq_refl)).
Defined.

Lemma write_failure_leaves_session_active_witness :
  isRecording (set_sd_ok false recording) = true /\
  sd_ok (card (set_sd_ok false recording)) = false /\
  snd (writeGPXPoint sample_fix (set_sd_ok false recording)) = set_sd_ok false recording.
Proof.
refine (conj eq_refl (conj eq_refl _)).
exact (proj1 (write_failure_leaves_session_active sample_fix 9000 9001
                (set_sd_ok false recording) eq_refl eq_refl)).
Defined.

Lemma invalid_location_skips_point_but_marks_clock_witness :
  isRecording recording = true /\ location_valid no_fix = false /\
  lastWrite (loop_gpx no_fix 5000 5001 recording) = 5001.
Proof.
refine (conj eq_refl (conj eq_refl _)).
exact (proj2 (proj2 (invalid_location_skips_point_but_marks_clock no_fix 5000 5001
                       recording eq_refl eq_refl))).
Defined.

Lemma start_keeps_sample_clock_witness :
  elapsed 10500 (lastWrite stopped_after_point) <= 3000 /\
  loop_gpx sample_fix 10500 10500 (snd (createGPX sample_fix 10400 true stopped_after_point))
    = snd (createGPX sample_fix 10400 true stopped_after_point).
Proof.
assert (Hwait : elapsed 10500 (lastWrite stopped_after_point) <= 3000)
  by (vm_compute; discriminate).
refine (conj Hwait _).
exact (proj2 (start_keeps_sample_clock sample_fix 10400 true sample_fix 10500 10500
                stopped_after_point Hwait)).
Defined.

Lemma trkpt_written_whatever_quality_witness :
  session_invariant recording /\ isRecording recording = true /\
  location_valid sample_fix = true /\ sd_ok (card recording) = true /\
  fst (writeGPXPoint sample_fix (set_quality (mkQuality 0 0%Q) recording)) = Written.
Proof.
assert (Hinv : session_invariant recording)
  by exact (conj eq_refl (ex_intro _ preamble_text eq_refl)).
refine (conj Hinv (conj eq_refl (conj eq_refl (conj eq_refl _)))).
exact (proj1 (trkpt_written_whatever_quality sample_fix (mkQuality 0 0%Q) recording
                Hinv eq_refl eq_refl eq_refl)).
Defined.

(** * Further properties of the sketches *)

(** ** What [parseGGA] reads *)

Section FieldFacts.
Context {F : Type} `{FloatOps F}.

Lemma substring_head (cur rest : string) :
  String.substring 0 (String.length cur) (cur ++ rest) = cur.
Proof.
induction cur as [|y cur IH]; [now destruct rest|].
rewrite append_cons. simpl. now rewrite IH.
Qed.

Lemma substring_skip (pre s : string) (n : nat) :
  String.substring (String.length pre) n (pre ++ s) = String.substring 0 n s.
Proof.
induction pre as [|x pre IH]; [reflexivity|].
rewrite append_cons. simpl. exact IH.
Qed.

Lemma substring_middle (pre cur rest : string) :
  rest <> "" ->
  Arduino.substring (pre ++ cur ++ rest) (String.length pre)
                    (String.length pre + String.length cur) = cur.
Proof.
intros Hne. unfold Arduino.substring.
replace (String.length pre + String.length cur <? String.length pre)%nat with false
  by (symmetry; apply Nat.ltb_ge; lia).
rewrite !length_append.
assert (0 < String.length rest)%nat by (destruct rest; [contradiction | simpl; lia]).
replace (String.length pre + (String.length cur + String.length rest) <=? String.length pre)%nat
  with false by (symmetry; apply Nat.leb_gt; lia).
replace (Nat.min (String.length pre + String.length cur)
           (String.length pre + (String.length cur + String.length rest)) - String.length pre)%nat
  with (String.length cur) by lia.
rewrite substring_skip. apply substring_head.
Qed.

Lemma parseGGA_loop_fields hdop_field (pre cur s : string) field (q : Quality F) :
  parseGGA_loop hdop_field (pre ++ cur ++ s) (String.length s)
                (String.length pre + String.length cur) (String.length pre) field q
  = assign_fields hdop_field field q (fields_from cur s).
Proof.
revert pre cur field q. induction s as [|c s IH]; intros pre cur field q; [reflexivity|].
simpl parseGGA_loop. simpl fields_from.
assert (Hc : Arduino.charAt (pre ++ cur ++ String c s)
               (String.length pre + String.length cur) = c).
{ rewrite <- append_assoc, <- length_append. apply charAt_append. }
rewrite Hc. destruct (is_delimiter c).
- rewrite substring_middle by discriminate. simpl assign_fields.
  destruct (field + 1 >? 9); [reflexivity|].
  specialize (IH (pre ++ cur ++ String c "") "").
  rewrite !append_assoc, !length_append in IH. simpl in IH.
  rewrite append_cons in IH. change ("" ++ s) with s in IH.
  replace (String.length pre + (String.length cur + 1) + 0)%nat
    with (S (String.length pre + String.length cur)) in IH by lia.
  replace (String.length pre + (String.length cur + 1))%nat
    with (S (String.length pre + String.length cur)) in IH by lia.
  apply IH.
- specialize (IH pre (cur ++ String c "")).
  rewrite !append_assoc, !length_append in IH. simpl in IH.
  replace (String.length pre + (String.length cur + 1))%nat
    with (S (String.length pre + String.length cur)) in IH by lia.
  apply IH.
Qed.

Lemma assign_fields_lookup_8 (q : Quality F) (fs : list string) :
  assign_fields 8 0 (mkQuality 0 fzero) fs =
    mkQuality (from_option Arduino.toInt 0 (fs !! 5%nat))
              (from_option toFloat fzero (fs !! 7%nat)).
Proof.
destruct fs as [|f1 [|f2 [|f3 [|f4 [|f5 [|f6 [|f7 [|f8 [|f9 [|f10 fs]]]]]]]]]];
  reflexivity.
Qed.

Lemma assign_fields_lookup_9 (q : Quality F) (fs : list string) :
  assign_fields 9 0 q fs =
    mkQuality (from_option Arduino.toInt (fixQuality q) (fs !! 5%nat))
              (from_option toFloat (hdop q) (fs !! 8%nat)).
Proof.
destruct q as [fq h].
destruct fs as [|f1 [|f2 [|f3 [|f4 [|f5 [|f6 [|f7 [|f8 [|f9 [|f10 fs]]]]]]]]]];
  reflexivity.
Qed.

Lemma parseGGA_by_fields (gga : string) (q : Quality F) :
  Sketch115200.parseGGA gga q =
    mkQuality (from_option Arduino.toInt 0 (terminated_fields gga !! 5%nat))
              (from_option toFloat fzero (terminated_fields gga !! 7%nat)) /\
  GPSSMACARD.parseGGA gga q =
    mkQuality (from_option Arduino.toInt (fixQuality q) (terminated_fields gga !! 5%nat))
              (from_option toFloat (hdop q) (terminated_fields gga !! 8%nat)).
Proof.
unfold Sketch115200.parseGGA, GPSSMACARD.parseGGA, terminated_fields.
pose proof (parseGGA_loop_fields 8 "" "" gga 0 (mkQuality 0 fzero)) as E8.
pose proof (parseGGA_loop_fields 9 "" "" gga 0 q) as E9.
change ("" ++ "" ++ gga) with gga in E8, E9. simpl in E8, E9.
rewrite E8, E9. split; [apply (assign_fields_lookup_8 q) | apply assign_fields_lookup_9].
Qed.

(** X1. [parseGGA] reads the sixth field into [fixQuality] and the eighth
    (115200 sketch) or ninth (GPSSMACARD.ino) into [hdop], a field being the
    text before a delimiter and the sentence name being the first.  A
    missing field gives zero in the 115200 sketch and the old value in
    GPSSMACARD.ino; what follows the last delimiter is never read. *)
Theorem parseGGA_reads_terminated_fields (gga : string) (q : Quality F) :
  Sketch115200.parseGGA gga q =
    mkQuality (from_option Arduino.toInt 0 (terminated_fields gga !! 5%nat))
              (from_option toFloat fzero (terminated_fields gga !! 7%nat)) /\
  GPSSMACARD.parseGGA gga q =
    mkQuality (from_option Arduino.toInt (fixQuality q) (terminated_fields gga !! 5%nat))
              (from_option toFloat (hdop q) (terminated_fields gga !! 8%nat)).
Proof. exact (parseGGA_by_fields gga q). Qed.

Lemma fields_from_field (cur p rest : string) (d : ascii) :
  no_delimiter p = true -> is_delimiter d = true ->
  fields_from cur (p ++ String d rest) = (cur ++ p) :: fields_from "" rest.
Proof.
intros Hp Hd. revert cur; induction p as [|c p IH]; intros cur.
- change ("" ++ String d rest) with (String d rest). simpl. rewrite Hd.
  now rewrite append_nil_r.
- rewrite append_cons. simpl in Hp |- *.
  destruct (is_delimiter c); [discriminate|]. simpl in Hp.
  rewrite IH by assumption. now rewrite append_assoc.
Qed.

Lemma fields_from_comma (cur p rest : string) :
  no_delimiter p = true ->
  fields_from cur (p ++ "," ++ rest) = (cur ++ p) :: fields_from "" rest.
Proof. intros Hp. now apply (fields_from_field cur p rest ","). Qed.

(** X2. On every sentence with a name and at least nine fields after it,
    none holding a delimiter, [fixQuality] is read from the fifth field after
    the name (the E/W hemisphere of a GGA sentence), and [hdop] from the
    seventh (the satellite count) in the 115200 sketch and from the eighth
    (the dilution) in GPSSMACARD.ino. *)
Theorem gga_sentence_fields_read
    (name utc lat ns lon ew qual sats dil rest : string) (q : Quality F) :
  no_delimiter name = true -> no_delimiter utc = true -> no_delimiter lat = true ->
  no_delimiter ns = true -> no_delimiter lon = true -> no_delimiter ew = true ->
  no_delimiter qual = true -> no_delimiter sats = true -> no_delimiter dil = true ->
  let sentence :=
    name ++ "," ++ utc ++ "," ++ lat ++ "," ++ ns ++ "," ++ lon ++ "," ++ ew
         ++ "," ++ qual ++ "," ++ sats ++ "," ++ dil ++ "," ++ rest in
  Sketch115200.parseGGA sentence q = mkQuality (Arduino.toInt ew) (toFloat sats) /\
  GPSSMACARD.parseGGA sentence q = mkQuality (Arduino.toInt ew) (toFloat dil).
Proof.
intros H0 H1 H2 H3 H4 H5 H6 H7 H8 sentence.
assert (E : terminated_fields sentence =
            name :: utc :: lat :: ns :: lon :: ew :: qual :: sats :: dil
              :: terminated_fields rest).
{ unfold sentence, terminated_fields.
  rewrite !fields_from_comma by assumption. reflexivity. }
destruct (parseGGA_by_fields sentence q) as [E1 E2].
rewrite E1, E2, E. split; reflexivity.
Qed.

End FieldFacts.

(** ** The serial loop *)

Section SerialFacts.
Context {F : Type} `{FloatOps F}.

Lemma serial_loop_app accept parse (a b : list ascii) (w : World F) :
  serial_loop accept parse (a ++ b) w =
    ((fst (serial_loop accept parse a w)
        ++ fst (serial_loop accept parse b (snd (serial_loop accept parse a w))))%list,
     snd (serial_loop accept parse b (snd (serial_loop accept parse a w)))).
Proof.
revert w; induction a as [|c a IH]; intros w.
- simpl. now destruct (serial_loop accept parse b w).
- simpl. destruct (serial_byte accept parse c w) as [done w1].
  rewrite IH.
  destruct (serial_loop accept parse a w1) as [l1 w2]. simpl.
  destruct (serial_loop accept parse b w2) as [l2 w3]. simpl.
  now destruct done.
Qed.


Lemma serial_loop_strip_cr accept parse (bytes : list ascii) (w : World F) :
  serial_loop accept parse (Spec.strip_cr bytes) w = serial_loop accept parse bytes w.
Proof.
revert w; induction bytes as [|c rest IH]; intros w; [reflexivity|].
unfold Spec.strip_cr in *. simpl.
destruct (Ascii.eqb c "013") eqn:Ecr; simpl.
- apply Ascii.eqb_eq in Ecr; subst c.
  change (serial_byte accept parse "013" w) with (@None string, w). rewrite IH.
  now destruct (serial_loop accept parse rest w).
- destruct (serial_byte accept parse c w) as [done w1]. now rewrite IH.
Qed.

(** X4. Carriage returns change nothing: with them removed from the input
    the same lines are completed and the same state is reached. *)
Theorem carriage_returns_ignored (bytes : list ascii) (w : World F) :
  Sketch115200.serial (Spec.strip_cr bytes) w = Sketch115200.serial bytes w /\
  GPSSMACARD.serial (Spec.strip_cr bytes) w = GPSSMACARD.serial bytes w.
Proof. split; apply serial_loop_strip_cr. Qed.

Lemma no_line_end_append (a b : string) :
  no_line_end (a ++ b) = no_line_end a && no_line_end b.
Proof.
induction a as [|x a IH]; [reflexivity|].
rewrite append_cons. simpl. rewrite IH. now rewrite !andb_assoc.
Qed.

Lemma serial_loop_no_line_end accept parse (bytes : list ascii) (w : World F) :
  no_line_end (nmeaLine w) = true ->
  forallb no_line_end (fst (serial_loop accept parse bytes w)) = true /\
  no_line_end (nmeaLine (snd (serial_loop accept parse bytes w))) = true.
Proof.
revert w; induction bytes as [|c rest IH]; intros w Hw; [now split|].
simpl. pose proof (serial_byte_line accept parse c w) as Hb. cbv zeta in Hb.
destruct (serial_byte accept parse c w) as [done w1]. simpl in Hb.
assert (Hw1 : no_line_end (nmeaLine w1) = true /\
              match done with Some l => no_line_end l = true | None => True end).
{ destruct (Ascii.eqb c LF) eqn:Elf.
  - destruct Hb as [-> ->]. now split.
  - destruct (Ascii.eqb c CR) eqn:Ecr.
    + destruct Hb as [-> ->]. now split.
    + destruct Hb as [-> ->]. split; [|exact I].
      rewrite no_line_end_append, Hw. simpl. now rewrite Elf, Ecr. }
destruct Hw1 as [Hw1 Hd]. destruct (IH w1 Hw1) as [IH1 IH2].
destruct (serial_loop accept parse rest w1) as [more w2]. simpl in *.
split; [|exact IH2]. destruct done; simpl; [now rewrite Hd|exact IH1].
Qed.

(** X5. From a buffer without line end, no completed line and no later
    buffer holds a carriage return or a line feed. *)
Theorem lines_hold_no_line_end (bytes : list ascii) (w : World F) :
  no_line_end (nmeaLine w) = true ->
  (forallb no_line_end (fst (Sketch115200.serial bytes w)) = true /\
   no_line_end (nmeaLine (snd (Sketch115200.serial bytes w))) = true) /\
  (forallb no_line_end (fst (GPSSMACARD.serial bytes w)) = true /\
   no_line_end (nmeaLine (snd (GPSSMACARD.serial bytes w))) = true).
Proof. intros Hw. split; now apply serial_loop_no_line_end. Qed.

(** The bytes of a text without line end go to the buffer and nowhere else. *)
Lemma serial_loop_text accept parse (s : string) (w : World F) :
  no_line_end s = true ->
  serial_loop accept parse (list_ascii_of_string s) w =
    ([], set_nmeaLine (nmeaLine w ++ s) w).
Proof.
revert w; induction s as [|c s IH]; intros w Hs.
- simpl. rewrite append_nil_r. now destruct w.
- simpl in Hs |- *. unfold serial_byte.
  destruct (Ascii.eqb c LF); [discriminate|].
  destruct (Ascii.eqb c CR); [discriminate|]. simpl in Hs |- *.
  rewrite IH by assumption. simpl. now rewrite append_assoc.
Qed.

(** X6. A whole line arriving on an empty buffer (text without line end,
    then CR LF) is completed as it is; when the sketch accepts it, it
    becomes [lastGGA] and is parsed, and otherwise nothing changes. *)
Theorem whole_sentence_line (s : string) (w : World F) :
  nmeaLine w = "" -> no_line_end s = true ->
  Sketch115200.serial (line_bytes s) w =
    ([s],
     if Sketch115200.accepts s
     then set_nmeaLine "" (set_quality (Sketch115200.parseGGA s (quality w)) (set_lastGGA s w))
     else w) /\
  GPSSMACARD.serial (line_bytes s) w =
    ([s],
     if GPSSMACARD.accepts s
     then set_nmeaLine "" (set_quality (GPSSMACARD.parseGGA s (quality w)) (set_lastGGA s w))
     else w).
Proof.
intros Hw Hs. unfold Sketch115200.serial, GPSSMACARD.serial, line_bytes.
assert (E : list_ascii_of_string (s ++ Arduino.CRLF)
            = (list_ascii_of_string s ++ [CR; LF])%list).
{ clear. induction s as [|c s IH]; [reflexivity|].
  rewrite append_cons. simpl. now rewrite IH. }
rewrite E, !serial_loop_app, !serial_loop_text by assumption.
rewrite Hw. change ("" ++ s) with s.
destruct w as [h r fn lg q rp nl lw cd]. simpl in Hw; subst nl.
split; simpl; unfold serial_byte; simpl.
- now destruct (Sketch115200.accepts s).
- now destruct (GPSSMACARD.accepts s).
Qed.

End SerialFacts.

(** ** Files *)

Section FileFacts.
Context {F : Type} `{FloatOps F}.

Lemma print_other_file (a : string) (w : World F) (path : string) :
  gpxFile w <> Some path -> file_content (print a w) path = file_content w path.
Proof.
intros Hne. unfold file_content, print.
destruct (gpxFile w) as [p|]; [|reflexivity].
destruct (sd_ok (card w)); [|reflexivity]. simpl.
rewrite lookup_alter_ne; [reflexivity|]. intros ->. now apply Hne.
Qed.

(** X7. When [SD.open] fails from Idle, [createGPX] leaves the sketch idle
    with the handle closed and the card as it was; only [filename] has
    changed.  Points and stop then do nothing, and a later start with a
    successful open starts a session. *)
Theorem failed_open_stays_idle gps now (w : World F) :
  isRecording w = false ->
  let r := createGPX gps now false w in
  fst r = OpenFailed /\ isRecording (snd r) = false /\ gpxFile (snd r) = None /\
  sd_files (card (snd r)) = sd_files (card w) /\
  filename (snd r) = track_filename gps now /\
  (forall gps', writeGPXPoint gps' (snd r) = (NotActive, snd r)) /\
  stopRecording (snd r) = (StopNotActive, snd r) /\
  (forall gps' now', fst (createGPX gps' now' true (snd r)) = Started).
Proof.
intros Hidle r. subst r. rewrite createGPX_open_failed by assumption. simpl.
repeat split; try assumption.
- intros gps'. rewrite writeGPXPoint_spec. simpl. now rewrite Hidle.
- rewrite stopRecording_spec. simpl. now rewrite Hidle.
- intros gps' now'. apply createGPX_started_iff. simpl. now split.
Qed.

(** X8. A successful start from Idle leaves exactly the preamble in the
    file it names, whatever that file held before, and leaves every other
    file as it was. *)
Theorem start_truncates_only_its_file gps now (w : World F) (path : string) :
  isRecording w = false -> sd_ok (card w) = true ->
  path <> track_filename gps now ->
  let w1 := snd (createGPX gps now true w) in
  file_content w1 (track_filename gps now) = Some preamble_text /\
  file_content w1 path = file_content w path.
Proof.
intros Hidle Hok Hne w1.
pose proof (createGPX_recording_into gps now w Hidle Hok) as (_ & _ & _ & _ & Hc).
split; [exact Hc|]. subst w1. rewrite createGPX_opened by assumption. cbn [snd].
change (file_content (set_isRecording true ?x) path) with (file_content x path).
rewrite print_other_file by (simpl; congruence).
unfold file_content. simpl. now rewrite lookup_insert_ne by congruence.
Qed.

(** X9. [writeGPXPoint] and [stopRecording] touch no file but the one the
    handle is open on. *)
Theorem other_files_untouched gps (w : World F) (path : string) :
  gpxFile w <> Some path ->
  file_content (snd (writeGPXPoint gps w)) path = file_content w path /\
  file_content (snd (stopRecording w)) path = file_content w path.
Proof.
intros Hne. rewrite writeGPXPoint_spec, stopRecording_spec. split.
- destruct (isRecording w && bool_decide (is_Some (gpxFile w))), (location_valid gps);
    simpl; auto using print_other_file.
- destruct (isRecording w && bool_decide (is_Some (gpxFile w))); simpl; [|reflexivity].
  change (file_content (set_isRecording false (set_gpxFile None ?x)) path)
    with (file_content x path).
  now apply print_other_file.
Qed.

(** X10. After [stopRecording] the sketch is idle with the handle closed:
    a second stop, a point and the three-second block all do nothing. *)
Theorem stop_then_nothing (w : World F) :
  session_invariant w ->
  let w1 := snd (stopRecording w) in
  isRecording w1 = false /\ gpxFile w1 = None /\
  stopRecording w1 = (StopNotActive, w1) /\
  (forall gps, writeGPXPoint gps w1 = (NotActive, w1)) /\
  (forall gps t1 t2, loop_gpx gps t1 t2 w1 = w1).
Proof.
intros Hinv w1.
assert (Hidle : isRecording w1 = false /\ gpxFile w1 = None).
{ subst w1. rewrite stopRecording_spec. unfold session_invariant in Hinv.
  destruct (isRecording w) eqn:R; simpl.
  - destruct Hinv as [-> _]. simpl. now split.
  - now split. }
destruct Hidle as [Hr Hf]. repeat split; try assumption.
- rewrite stopRecording_spec. now rewrite Hr.
- intros gps. rewrite writeGPXPoint_spec. now rewrite Hr.
- intros gps t1 t2. unfold loop_gpx. now rewrite Hr.
Qed.

Lemma grows_same_files (w w' : World F) :
  sd_files (card w') = sd_files (card w) -> grows w w'.
Proof.
intros E path old Hold. exists "". unfold file_content in *.
now rewrite E, append_nil_r.
Qed.

Lemma grows_trans (w1 w2 w3 : World F) : grows w1 w2 -> grows w2 w3 -> grows w1 w3.
Proof.
intros G1 G2 path old Hold.
destruct (G1 path old Hold) as [m1 H1]. destruct (G2 path _ H1) as [m2 H2].
exists (m1 ++ m2). now rewrite <- append_assoc.
Qed.

Lemma print_grows (a : string) (w : World F) : grows w (print a w).
Proof.
intros path old Hold. unfold file_content, print in *.
destruct (gpxFile w) as [p|]; [|exists ""; now rewrite append_nil_r].
destruct (sd_ok (card w)); [|exists ""; now rewrite append_nil_r]. simpl.
destruct (decide (p = path)) as [->|Hne].
- exists a. rewrite lookup_alter. cbn. rewrite decide_True by reflexivity. now rewrite Hold.
- exists "". rewrite lookup_alter_ne by assumption. now rewrite append_nil_r.
Qed.

Lemma writeGPXPoint_grows gps (w : World F) : grows w (snd (writeGPXPoint gps w)).
Proof.
rewrite writeGPXPoint_spec.
destruct (isRecording w && bool_decide (is_Some (gpxFile w))), (location_valid gps);
  simpl; try (now apply grows_same_files). apply print_grows.
Qed.

Lemma stopRecording_grows (w : World F) : grows w (snd (stopRecording w)).
Proof.
rewrite stopRecording_spec.
destruct (isRecording w && bool_decide (is_Some (gpxFile w))); simpl;
  [|now apply grows_same_files].
apply (grows_trans _ _ _ (print_grows closing_text w)). now apply grows_same_files.
Qed.

Lemma loop_gpx_grows gps now_gate now_mark (w : World F) :
  grows w (loop_gpx gps now_gate now_mark w).
Proof.
unfold loop_gpx.
destruct (isRecording w && (elapsed now_gate (lastWrite w) >? 3000));
  [|now apply grows_same_files].
apply (grows_trans _ _ _ (writeGPXPoint_grows gps w)). now apply grows_same_files.
Qed.

Lemma serial_loop_grows accept parse (bytes : list ascii) (w : World F) :
  grows w (snd (serial_loop accept parse bytes w)).
Proof.
apply grows_same_files.
now destruct (serial_loop_same_session accept parse bytes w) as (_ & _ & _ & ->).
Qed.

(** X11. A pass of [loop] that starts no session (the key is up, or a
    session is recording) loses nothing: every file keeps its content and
    can only get more at its end.  This holds for both sketches. *)
Theorem pass_without_start_keeps_data (i : LoopInput F) (w : World F) (path old : string) :
  in_key_r i = false \/ isRecording w = true ->
  file_content w path = Some old ->
  (exists more, file_content (Sketch115200.loop i w) path = Some (old ++ more)) /\
  (exists more, file_content (GPSSMACARD.loop i w) path = Some (old ++ more)).
Proof.
intros Hns Hold.
assert (G1 : grows w (Sketch115200.loop_key i w)).
{ unfold Sketch115200.loop_key.
  apply (grows_trans _ (if in_key_r i && negb (rPrev w)
                        then if negb (isRecording w)
                             then snd (createGPX (in_gps_key i) (in_now_key i) (in_open_ok i) w)
                             else snd (stopRecording w)
                        else w)); [|now apply grows_same_files].
  destruct Hns as [-> | ->]; simpl.
  - now apply grows_same_files.
  - destruct (in_key_r i && negb (rPrev w)); [apply stopRecording_grows|now apply grows_same_files]. }
assert (G2 : grows w (GPSSMACARD.loop_key i w)).
{ unfold GPSSMACARD.loop_key.
  destruct Hns as [-> | ->]; simpl.
  - now apply grows_same_files.
  - destruct (in_key_r i); [apply stopRecording_grows|now apply grows_same_files]. }
split.
- apply (grows_trans _ _ _ G1
           (grows_trans _ _ _ (serial_loop_grows _ _ _ _) (loop_gpx_grows _ _ _ _)));
    exact Hold.
- apply (grows_trans _ _ _ G2
           (grows_trans _ _ _ (serial_loop_grows _ _ _ _) (loop_gpx_grows _ _ _ _)));
    exact Hold.
Qed.

End FileFacts.

(** ** Sessions of any length *)

Section TrackFacts.
Context {F : Type} `{FloatOps F}.

Lemma located_cons gps q (rest : list (Snapshot F * Quality F)) :
  located ((gps, q) :: rest) =
    if location_valid gps then (gps, q) :: located rest else located rest.
Proof. reflexivity. Qed.

Lemma append_points_recording_into pts (w : World F) (path text : string) :
  recording_into w path text ->
  recording_into (append_points pts w) path (text ++ points_text (located pts)).
Proof.
revert w text; induction pts as [|[gps q] rest IH]; intros w text R.
- simpl. now rewrite append_nil_r.
- cbn [append_points]. apply (set_quality_recording_into q) in R.
  destruct (location_valid gps) eqn:Hloc.
  + destruct (writeGPXPoint_recording_into gps _ _ _ R Hloc) as [_ R'].
    apply IH in R'. cbn [quality set_quality] in R'.
    rewrite located_cons, Hloc. cbn [points_text].
    now rewrite append_assoc in R'.
  + rewrite located_cons, Hloc.
    rewrite writeGPXPoint_spec, Hloc.
    destruct (isRecording (set_quality q w) && bool_decide (is_Some (gpxFile (set_quality q w))));
      simpl; now apply IH.
Qed.

Lemma emits_points_text (pts : list (Snapshot F * Quality F)) :
  emits (points_text pts) (points_tags pts).
Proof.
induction pts as [|[gps q] rest IH].
- now apply emits_text.
- exact (emits_app _ _ _ _ (emits_trkpt_text gps (hdop q)) IH).
Qed.

Lemma closes_points (pts : list (Snapshot F * Quality F)) :
  closes ["trkseg"; "trk"; "gpx"] (map Xml.classify (points_tags pts)) (points_paths pts).
Proof.
induction pts as [|[gps q] rest IH].
- apply closes_nil.
- cbn [points_tags points_paths]. rewrite map_app.
  exact (closes_app _ _ _ _ _ (closes_point gps (hdop q)) IH).
Qed.

Lemma points_paths_trkpt (pts : list (Snapshot F * Quality F)) :
  List.filter is_trkpt (points_paths pts) = repeat trkpt_path (length pts).
Proof.
induction pts as [|[gps q] rest IH]; [reflexivity|].
cbn [points_paths]. rewrite List.filter_app, point_paths_one_trkpt, IH. reflexivity.
Qed.

Lemma track_tags (pts : list (Snapshot F * Quality F)) (tail : string) (ts : list string) :
  emits tail ts ->
  Xml.tags_from None (preamble_text ++ points_text pts ++ tail) =
    Some (["?xml version='1.0' encoding='UTF-8'?"; "gpx version='1.1'"; "trk"; "trkseg"]
            ++ points_tags pts ++ ts)%list.
Proof.
intros Ht.
pose proof (emits_app _ _ _ _ emits_preamble
             (emits_app _ _ _ _ (emits_points_text pts) Ht)) as E.
specialize (E ""). rewrite append_nil_r in E. rewrite E. simpl. now rewrite !app_nil_r.
Qed.

Lemma track_elements (pts : list (Snapshot F * Quality F)) :
  Xml.elements (preamble_text ++ points_text pts ++ closing_text) =
    Some (track_paths ++ points_paths pts)%list.
Proof.
unfold Xml.elements. rewrite (track_tags pts _ _ emits_closing).
rewrite !map_app.
change (map Xml.classify
          ["?xml version='1.0' encoding='UTF-8'?"; "gpx version='1.1'"; "trk"; "trkseg"] ++ ?r)%list
  with (Xml.Declaration :: Xml.Opening "gpx" :: Xml.Opening "trk" :: Xml.Opening "trkseg" :: r).
rewrite paths_from_track_open, (closes_points pts). simpl.
now rewrite !app_nil_r.
Qed.

Lemma emits_nothing : emits "" [].
Proof. now apply emits_text. Qed.

Lemma unclosed_track_elements (pts : list (Snapshot F * Quality F)) :
  Xml.tags_from None (preamble_text ++ points_text pts) =
    Some (["?xml version='1.0' encoding='UTF-8'?"; "gpx version='1.1'"; "trk"; "trkseg"]
            ++ points_tags pts)%list /\
  Xml.elements (preamble_text ++ points_text pts) = None.
Proof.
pose proof (track_tags pts "" [] emits_nothing) as E.
rewrite append_nil_r, app_nil_r in E. split; [exact E|].
unfold Xml.elements. rewrite E. rewrite map_app.
change (map Xml.classify
          ["?xml version='1.0' encoding='UTF-8'?"; "gpx version='1.1'"; "trk"; "trkseg"] ++ ?r)%list
  with (Xml.Declaration :: Xml.Opening "gpx" :: Xml.Opening "trk" :: Xml.Opening "trkseg" :: r).
rewrite paths_from_track_open.
pose proof (closes_points pts []) as C. rewrite app_nil_r in C. rewrite C.
reflexivity.
Qed.

(** X12. A session of any number of [writeGPXPoint] calls, stopped: the
    file holds the preamble, one [<trkpt>] element for each call that had a
    valid location, in order, and the closing line.  It is well nested, and
    its [trkpt] elements are as many as those calls. *)
Theorem session_file_is_track gps now open_ok pts (w0 : World F) :
  fst (createGPX gps now open_ok w0) = Started ->
  sd_ok (card w0) = true ->
  let w1 := snd (createGPX gps now open_ok w0) in
  let s := stopRecording (append_points pts w1) in
  fst s = Stopped /\
  file_content (snd s) (filename (snd s)) =
    Some (preamble_text ++ points_text (located pts) ++ closing_text) /\
  Xml.elements (preamble_text ++ points_text (located pts) ++ closing_text) =
    Some (track_paths ++ points_paths (located pts))%list /\
  List.filter is_trkpt (track_paths ++ points_paths (located pts))%list
    = repeat trkpt_path (length (located pts)).
Proof.
intros Hs Hok w1 s. apply createGPX_started_iff in Hs as [Hidle ->].
pose proof (createGPX_recording_into gps now w0 Hidle Hok) as R. fold w1 in R.
apply (append_points_recording_into pts) in R.
destruct (stopRecording_recording_into _ _ _ R) as (S1 & _ & _ & S4 & S5).
fold s in S1, S4, S5. split; [exact S1|]. split; [|split].
- rewrite S4, S5. now rewrite !append_assoc.
- apply track_elements.
- rewrite List.filter_app, points_paths_trkpt. reflexivity.
Qed.

(** X13. A session that is not stopped (the power goes) leaves the
    preamble and the points written so far.  That text is not well formed,
    its three outer elements being open, and becomes so when the closing
    line is put at its end. *)
Theorem unstopped_session_file gps now open_ok pts (w0 : World F) :
  fst (createGPX gps now open_ok w0) = Started ->
  sd_ok (card w0) = true ->
  let w := append_points pts (snd (createGPX gps now open_ok w0)) in
  file_content w (filename w) = Some (preamble_text ++ points_text (located pts)) /\
  Xml.elements (preamble_text ++ points_text (located pts)) = None /\
  Xml.elements ((preamble_text ++ points_text (located pts)) ++ closing_text) =
    Some (track_paths ++ points_paths (located pts))%list.
Proof.
intros Hs Hok w. apply createGPX_started_iff in Hs as [Hidle ->].
pose proof (createGPX_recording_into gps now w0 Hidle Hok) as R.
apply (append_points_recording_into pts) in R. fold w in R.
destruct R as (_ & _ & Hn & _ & Hc). split; [|split].
- now rewrite Hn.
- apply unclosed_track_elements.
- rewrite append_assoc. apply track_elements.
Qed.

End TrackFacts.

(** ** The three-second block and the key *)

Section PassFacts.
Context {F : Type} `{FloatOps F}.

(** X14. [writeGPXPoint] and the block of [loop] that calls it are written
    differently in GPSSMACARD.ino (one condition, the clock tested first)
    and do the same as those of the 115200 sketch on every state. *)
Theorem GPSSMACARD_point_writing_same gps now_gate now_mark (w : World F) :
  GPSSMACARD.writeGPXPoint gps w = snd (writeGPXPoint gps w) /\
  GPSSMACARD.loop_gpx gps now_gate now_mark w = loop_gpx gps now_gate now_mark w.
Proof.
assert (E : GPSSMACARD.writeGPXPoint gps w = snd (writeGPXPoint gps w)).
{ unfold GPSSMACARD.writeGPXPoint, writeGPXPoint.
  destruct (location_valid gps), (isRecording w), (bool_decide (is_Some (gpxFile w)));
    reflexivity. }
split; [exact E|].
unfold GPSSMACARD.loop_gpx, loop_gpx. rewrite E.
now destruct (isRecording w), (elapsed now_gate (lastWrite w) >? 3000).
Qed.

(** X15. The elapsed time is right across the overflow of [millis()]: if
    [d] milliseconds have passed since [last], the clock shows
    [(last + d) mod 2^32] and the sketch computes [d]. *)
Theorem elapsed_across_overflow (last d : Z) :
  0 <= last < UINT32 -> 0 <= d < UINT32 ->
  elapsed ((last + d) mod UINT32) last = d.
Proof.
intros Hl Hd. unfold elapsed.
rewrite Zminus_mod_idemp_l.
replace (last + d - last) with d by lia.
now apply Z.mod_small.
Qed.

Lemma loop_gpx_lastWrite gps now_gate now_mark (w : World F) :
  lastWrite (loop_gpx gps now_gate now_mark w) =
    if isRecording w && (elapsed now_gate (lastWrite w) >? 3000)
    then now_mark else lastWrite w.
Proof.
unfold loop_gpx.
now destruct (isRecording w && (elapsed now_gate (lastWrite w) >? 3000)).
Qed.

Lemma loop_gpx_isRecording gps now_gate now_mark (w : World F) :
  isRecording (loop_gpx gps now_gate now_mark w) = isRecording w.
Proof.
unfold loop_gpx.
destruct (isRecording w && (elapsed now_gate (lastWrite w) >? 3000)); [|reflexivity].
simpl. now destruct (writeGPXPoint_frame gps w) as (-> & _).
Qed.

(** X16. When the three-second block runs its body it stores the clock in
    [lastWrite], and a later pass within 3000 ms of that value does
    nothing at all: at most one point per interval. *)
Theorem gate_shut_for_an_interval gps gps' now_gate now_mark later later_mark (w : World F) :
  isRecording w = true ->
  elapsed now_gate (lastWrite w) > 3000 ->
  elapsed later now_mark <= 3000 ->
  let w1 := loop_gpx gps now_gate now_mark w in
  lastWrite w1 = now_mark /\
  loop_gpx gps' later later_mark w1 = w1.
Proof.
intros Hrec Hopen Hshut w1.
assert (Hm : lastWrite w1 = now_mark).
{ subst w1. rewrite loop_gpx_lastWrite, Hrec.
  replace (elapsed now_gate (lastWrite w) >? 3000) with true
    by (symmetry; rewrite Z.gtb_ltb; apply Z.ltb_lt; lia).
  reflexivity. }
split; [exact Hm|]. unfold loop_gpx at 1. rewrite Hm.
replace (elapsed later now_mark >? 3000) with false
  by (symmetry; rewrite Z.gtb_ltb; apply Z.ltb_ge; lia).
now rewrite andb_false_r.
Qed.

Lemma serial_loop_rPrev accept parse (bytes : list ascii) (w : World F) :
  rPrev (snd (serial_loop accept parse bytes w)) = rPrev w /\
  lastWrite (snd (serial_loop accept parse bytes w)) = lastWrite w.
Proof.
revert w; induction bytes as [|c rest IH]; intros w; [now split|].
simpl. assert (Hb : rPrev (snd (serial_byte accept parse c w)) = rPrev w /\
                    lastWrite (snd (serial_byte accept parse c w)) = lastWrite w).
{ unfold serial_byte. destruct (Ascii.eqb c LF); [now destruct (accept (nmeaLine w))|].
  now destruct (negb (Ascii.eqb c CR)). }
destruct (serial_byte accept parse c w) as [done w1]. simpl in Hb.
specialize (IH w1). destruct (serial_loop accept parse rest w1) as [more w2].
simpl in *. destruct IH as [-> ->]. exact Hb.
Qed.

Lemma loop_gpx_rPrev gps now_gate now_mark (w : World F) :
  rPrev (loop_gpx gps now_gate now_mark w) = rPrev w.
Proof.
unfold loop_gpx.
destruct (isRecording w && (elapsed now_gate (lastWrite w) >? 3000)); [|reflexivity].
simpl. rewrite writeGPXPoint_spec.
destruct (isRecording w && bool_decide (is_Some (gpxFile w))), (location_valid gps);
  try reflexivity.
simpl. unfold print. now destruct (gpxFile w), (sd_ok (card w)).
Qed.

Lemma Sketch115200_loop_rPrev (i : LoopInput F) (w : World F) :
  rPrev (Sketch115200.loop i w) = in_key_r i.
Proof.
unfold Sketch115200.loop. rewrite loop_gpx_rPrev.
unfold Sketch115200.serial.
now rewrite (proj1 (serial_loop_rPrev _ _ _ _)).
Qed.

Lemma Sketch115200_loop_key_held (i : LoopInput F) (w : World F) :
  rPrev w = true -> Sketch115200.loop_key i w = set_rPrev (in_key_r i) w.
Proof.
intros Hp. unfold Sketch115200.loop_key. rewrite Hp. now rewrite andb_false_r.
Qed.

Lemma loop_gpx_handle gps now_gate now_mark (w : World F) :
  isRecording (loop_gpx gps now_gate now_mark w) = isRecording w /\
  gpxFile (loop_gpx gps now_gate now_mark w) = gpxFile w /\
  filename (loop_gpx gps now_gate now_mark w) = filename w.
Proof.
unfold loop_gpx.
destruct (isRecording w && (elapsed now_gate (lastWrite w) >? 3000)); [|now repeat split].
simpl. destruct (writeGPXPoint_frame gps w) as (-> & -> & -> & _). now repeat split.
Qed.

Lemma after_key_handle accept parse (bytes : list ascii) gps now_gate now_mark (w : World F) :
  let w' := loop_gpx gps now_gate now_mark (snd (serial_loop accept parse bytes w)) in
  isRecording w' = isRecording w /\ gpxFile w' = gpxFile w /\ filename w' = filename w.
Proof.
cbv zeta.
destruct (loop_gpx_handle gps now_gate now_mark (snd (serial_loop accept parse bytes w)))
  as (-> & -> & ->).
destruct (serial_loop_same_session accept parse bytes w) as (-> & -> & -> & _).
now repeat split.
Qed.

(** X17. In the 115200 sketch the key acts on its press only: in the pass
    after one that saw the key down, the session is neither started nor
    stopped, whatever the key does. *)
Theorem Sketch115200_held_key_toggles_once (i1 i2 : LoopInput F) (w : World F) :
  in_key_r i1 = true ->
  let w1 := Sketch115200.loop i1 w in
  let w2 := Sketch115200.loop i2 w1 in
  isRecording w2 = isRecording w1 /\ gpxFile w2 = gpxFile w1 /\ filename w2 = filename w1.
Proof.
intros Hkey w1 w2.
assert (Hp : rPrev w1 = true) by (subst w1; now rewrite Sketch115200_loop_rPrev).
subst w2. unfold Sketch115200.loop, Sketch115200.serial.
fold (Sketch115200.loop i1 w). fold w1.
rewrite (Sketch115200_loop_key_held i2 w1 Hp).
exact (after_key_handle _ _ _ _ _ _ (set_rPrev (in_key_r i2) w1)).
Qed.

(** X18. In GPSSMACARD.ino the key acts on every pass that sees it down:
    from Idle, two passes with the key down start a session (the open
    succeeding) and stop it again. *)
Theorem GPSSMACARD_held_key_toggles_again (i1 i2 : LoopInput F) (w : World F) :
  in_key_r i1 = true -> in_key_r i2 = true ->
  isRecording w = false -> in_open_ok i1 = true ->
  let w1 := GPSSMACARD.loop i1 w in
  let w2 := GPSSMACARD.loop i2 w1 in
  isRecording w1 = true /\ isRecording w2 = false /\ gpxFile w2 = None.
Proof.
intros Hk1 Hk2 Hidle Hopen w1 w2.
assert (H1 : isRecording w1 = true /\ is_Some (gpxFile w1)).
{ subst w1. unfold GPSSMACARD.loop, GPSSMACARD.serial.
  destruct (after_key_handle GPSSMACARD.accepts GPSSMACARD.parseGGA (in_serial i1)
              (in_gps i1) (in_now_gate i1) (in_now_mark i1) (GPSSMACARD.loop_key i1 w))
    as (-> & -> & _).
  unfold GPSSMACARD.loop_key. rewrite Hk1, Hidle. simpl.
  rewrite GPSSMACARD_createGPX_same, Hopen, createGPX_opened by assumption. simpl.
  rewrite print_gpxFile. simpl. split; [reflexivity | now eexists]. }
destruct H1 as [Hr Hf]. split; [exact Hr|].
subst w2. unfold GPSSMACARD.loop, GPSSMACARD.serial.
destruct (after_key_handle GPSSMACARD.accepts GPSSMACARD.parseGGA (in_serial i2)
            (in_gps i2) (in_now_gate i2) (in_now_mark i2) (GPSSMACARD.loop_key i2 w1))
  as (-> & -> & _).
unfold GPSSMACARD.loop_key. rewrite Hk2, Hr. simpl.
rewrite stopRecording_spec, Hr. rewrite bool_decide_true by assumption. now split.
Qed.

Lemma serial_loop_card accept parse (bytes : list ascii) (w : World F) :
  card (snd (serial_loop accept parse bytes w)) = card w.
Proof.
revert w; induction bytes as [|c rest IH]; intros w; [reflexivity|].
simpl. assert (Hb : card (snd (serial_byte accept parse c w)) = card w).
{ unfold serial_byte. destruct (Ascii.eqb c LF); [now destruct (accept (nmeaLine w))|].
  now destruct (negb (Ascii.eqb c CR)). }
destruct (serial_byte accept parse c w) as [done w1]. simpl in Hb.
specialize (IH w1). destruct (serial_loop accept parse rest w1) as [more w2].
simpl in *. congruence.
Qed.

(** X19. A pass of the 115200 sketch while recording, with the key up, a
    valid location and more than 3000 ms elapsed, puts one [<trkpt>] at the
    end of the session file and stores the clock.  The serial bytes are
    read first, so the point carries the [hdop] the pass ends with. *)
Theorem pass_writes_point_with_fresh_quality (i : LoopInput F) (w : World F) :
  session_invariant w -> isRecording w = true -> sd_ok (card w) = true ->
  in_key_r i = false -> location_valid (in_gps i) = true ->
  elapsed (in_now_gate i) (lastWrite w) > 3000 ->
  let w' := Sketch115200.loop i w in
  lastWrite w' = in_now_mark i /\
  exists old,
    file_content w (filename w) = Some old /\
    file_content w' (filename w) =
      Some (old ++ trkpt_text (in_gps i) (hdop (quality w'))).
Proof.
intros Hinv Hrec Hok Hkey Hloc Hgate w'.
unfold session_invariant in Hinv. rewrite Hrec in Hinv. destruct Hinv as [Hf [old Hold]].
set (w1 := snd (Sketch115200.serial (in_serial i) (Sketch115200.loop_key i w))).
assert (Hk : Sketch115200.loop_key i w = set_rPrev false w).
{ unfold Sketch115200.loop_key. now rewrite Hkey. }
assert (R : recording_into w1 (filename w) old).
{ subst w1. unfold Sketch115200.serial. rewrite Hk.
  destruct (serial_loop_same_session Sketch115200.accepts Sketch115200.parseGGA
              (in_serial i) (set_rPrev false w)) as (E1 & E2 & E3 & E4).
  unfold recording_into, file_content. rewrite E1, E2, E3, E4, serial_loop_card.
  simpl. repeat split; assumption. }
assert (Hlw : lastWrite w1 = lastWrite w).
{ subst w1. unfold Sketch115200.serial. rewrite Hk.
  now rewrite (proj2 (serial_loop_rPrev _ _ _ _)). }
destruct (writeGPXPoint_recording_into (in_gps i) w1 _ _ R Hloc) as [_ (_ & _ & _ & _ & Hc)].
assert (E : w' = set_lastWrite (in_now_mark i) (snd (writeGPXPoint (in_gps i) w1))).
{ subst w'. unfold Sketch115200.loop. fold w1. unfold loop_gpx. rewrite Hlw.
  destruct R as (-> & _).
  replace (elapsed (in_now_gate i) (lastWrite w) >? 3000) with true
    by (symmetry; rewrite Z.gtb_ltb; apply Z.ltb_lt; lia).
  reflexivity. }
split; [now rewrite E|].
exists old. split; [exact Hold|].
assert (Hq : quality w' = quality w1).
{ rewrite E. simpl. now destruct (writeGPXPoint_frame (in_gps i) w1) as (_ & _ & _ & _ & -> & _). }
rewrite Hq, E. exact Hc.
Qed.

End PassFacts.

(** ** File names, reachable states, time stamps *)

Section NameFacts.
Context {F : Type} `{FloatOps F}.

Lemma decimal_inj (a b : N) : Arduino.decimal a = Arduino.decimal b -> a = b.
Proof.
unfold Arduino.decimal. intros E.
assert (Hn : forall n, N.to_uint n <> Decimal.Nil).
{ intros [|p]; [discriminate | apply DecimalPos.Unsigned.to_uint_nonnil]. }
apply DecimalN.Unsigned.to_uint_inj.
pose proof (NilZero.usu _ (Hn a)) as Ea. pose proof (NilZero.usu _ (Hn b)) as Eb.
rewrite E in Ea. congruence.
Qed.

Lemma append_same_length_inj (a b c d : string) :
  String.length a = String.length b -> a ++ c = b ++ d -> a = b.
Proof.
revert b; induction a as [|x a IH]; intros [|y b] Hl E; try discriminate; [reflexivity|].
rewrite !append_cons in E. injection E as -> E. simpl in Hl.
f_equal. apply IH; [lia | exact E].
Qed.

Lemma append_inj_r (a b c : string) : a ++ c = b ++ c -> a = b.
Proof.
intros E. apply (append_same_length_inj a b c c); [|exact E].
apply (f_equal String.length) in E. rewrite !length_append in E. lia.
Qed.

Lemma append_inj_l (a b c : string) : a ++ b = a ++ c -> b = c.
Proof.
induction a as [|x a IH]; [trivial|].
rewrite !append_cons. intros E. injection E as E. auto.
Qed.

(** X20. With the same date, two starts get the same file name exactly
    when they fall in the same second of uptime. *)
Theorem track_filename_same_iff_same_second (gps : Snapshot F) (now now' : Z) :
  0 <= now -> 0 <= now' ->
  (track_filename gps now = track_filename gps now' <-> now / 1000 = now' / 1000).
Proof.
intros Hn Hn'. split.
- unfold track_filename. intros E.
  apply append_inj_l, append_inj_l, append_inj_r, decimal_inj in E.
  apply (f_equal Z.of_N) in E.
  rewrite !Z2N.id in E by (apply Z.div_pos; lia). exact E.
- unfold track_filename. now intros ->.
Qed.

(** X21. In every state either sketch reaches, the sketch is recording
    exactly when the handle is open, and then the handle is open on the
    file named [filename], which is on the card. *)
Theorem reachable_recording_iff_handle (w : World F) :
  reachable Sketch115200.loop w \/ reachable GPSSMACARD.loop w ->
  (isRecording w = true <-> is_Some (gpxFile w)) /\
  (isRecording w = true ->
   gpxFile w = Some (filename w) /\ is_Some (file_content w (filename w))).
Proof.
intros Hr. apply reachable_session_invariant in Hr.
unfold session_invariant in Hr. destruct (isRecording w).
- destruct Hr as [Hf Hc]. split; [|tauto].
  split; [intros _; rewrite Hf; now eexists | reflexivity].
- split; [|discriminate]. rewrite Hr. split; [discriminate|]. now intros [x Hx].
Qed.

Lemma checked_below (P : N -> bool) (k : nat) :
  forallb P (map N.of_nat (List.seq 0%nat k)) = true ->
  forall n, (n < N.of_nat k)%N -> P n = true.
Proof.
intros Hall n Hn. rewrite forallb_forall in Hall. apply Hall.
rewrite <- (N2Nat.id n). apply in_map, List.in_seq. lia.
Qed.

Lemma pad4_length (n : N) :
  (n < 10000)%N -> String.length (Arduino.decimal_pad0 4 n) = 4%nat.
Proof.
intros Hn. apply Nat.eqb_eq.
apply (checked_below (fun n => String.length (Arduino.decimal_pad0 4 n) =? 4)%nat (100 * 100));
  [vm_compute; reflexivity | exact Hn].
Qed.

Lemma pad2_length (n : N) :
  (n < 100)%N -> String.length (Arduino.decimal_pad0 2 n) = 2%nat.
Proof.
intros Hn. apply Nat.eqb_eq.
apply (checked_below (fun n => String.length (Arduino.decimal_pad0 2 n) =? 2)%nat 100);
  [vm_compute; reflexivity | exact Hn].
Qed.

(** X22. The time stamp has twenty characters whenever the year is below
    10000 and the other fields are below 100. *)
Theorem timestamp_has_twenty_characters (gps : Snapshot F) :
  (year gps < 10000)%N -> (month gps < 100)%N -> (day gps < 100)%N ->
  (hour gps < 100)%N -> (minute gps < 100)%N -> (second gps < 100)%N ->
  String.length (timestamp gps) = 20%nat.
Proof.
intros Hy Hm Hd Hh Hmi Hs. unfold timestamp.
rewrite !length_append, pad4_length, !pad2_length by assumption. reflexivity.
Qed.

End NameFacts.

(** ** The further theorems with hypotheses, at sample inputs *)

(** The session of the sample fix started on the card that is in use. *)
Definition recording_on_used_card : World Q :=
  snd (createGPX sample_fix 5000 true (boot used_card)).

(** A run of three calls, the second without a location. *)
Definition three_calls : list (Snapshot Q * Quality Q) :=
  [ (sample_fix, mkQuality 1 (9 # 10)%Q); (no_fix, mkQuality 0 0%Q);
    (sample_fix, mkQuality 0 0%Q) ].

Lemma gga_sentence_fields_read_witness :
  no_delimiter "$GPGGA" = true /\ no_delimiter "0.9" = true /\
  Sketch115200.parseGGA gga_example (mkQuality 7 1%Q)
    = mkQuality (Arduino.toInt "E") (toFloat "08").
Proof.
refine (conj eq_refl (conj eq_refl _)).
exact (proj1 (gga_sentence_fields_read "$GPGGA" "123519" "4807.038" "N" "01131.000" "E"
                "1" "08" "0.9" "545.4,M,46.9,M,,*47" (mkQuality 7 1%Q)
                eq_refl eq_refl eq_refl eq_refl eq_refl eq_refl eq_refl eq_refl eq_refl)).
Defined.

Lemma lines_hold_no_line_end_witness :
  no_line_end (nmeaLine (boot (F := Q) fresh_card)) = true /\
  no_line_end
    (nmeaLine (snd (Sketch115200.serial (line_bytes "$GPGGA,1" ++ ["$"; "G"]%char)%list
                      (boot (F := Q) fresh_card)))) = true.
Proof.
refine (conj eq_refl _).
exact (proj2 (proj1 (lines_hold_no_line_end
                       (line_bytes "$GPGGA,1" ++ ["$"; "G"]%char)%list
                       (boot fresh_card) eq_refl))).
Defined.

Lemma whole_sentence_line_witness :
  nmeaLine (boot (F := Q) fresh_card) = "" /\ no_line_end gga_example = true /\
  fst (Sketch115200.serial (line_bytes gga_example) (boot (F := Q) fresh_card))
    = [gga_example].
Proof.
refine (conj eq_refl (conj eq_refl _)).
exact (f_equal fst (proj1 (whole_sentence_line gga_example (boot fresh_card)
                             eq_refl eq_refl))).
Defined.

Lemma failed_open_stays_idle_witness :
  isRecording (boot (F := Q) fresh_card) = false /\
  fst (createGPX sample_fix 5000 false (boot fresh_card)) = OpenFailed.
Proof.
refine (conj eq_refl _).
exact (proj1 (failed_open_stays_idle sample_fix 5000 (boot fresh_card) eq_refl)).
Defined.

Lemma start_truncates_only_its_file_witness :
  file_content (boot (F := Q) used_card) "/track_2024-5-17_5.gpx" = Some "an earlier track" /\
  "/notes.txt" <> track_filename sample_fix 5000 /\
  file_content recording_on_used_card "/track_2024-5-17_5.gpx" = Some preamble_text /\
  file_content recording_on_used_card "/notes.txt" = Some "keep".
Proof.
assert (Hne : "/notes.txt" <> track_filename sample_fix 5000)
  by (vm_compute; discriminate).
refine (conj eq_refl (conj Hne _)).
exact (start_truncates_only_its_file sample_fix 5000 (boot used_card) "/notes.txt"
         eq_refl eq_refl Hne).
Defined.

Lemma other_files_untouched_witness :
  gpxFile recording_on_used_card <> Some "/notes.txt" /\
  file_content (snd (writeGPXPoint sample_fix recording_on_used_card)) "/notes.txt"
    = file_content recording_on_used_card "/notes.txt".
Proof.
assert (Hne : gpxFile recording_on_used_card <> Some "/notes.txt")
  by (vm_compute; discriminate).
refine (conj Hne _).
exact (proj1 (other_files_untouched sample_fix recording_on_used_card "/notes.txt" Hne)).
Defined.

Lemma stop_then_nothing_witness :
  session_invariant recording /\
  isRecording (snd (stopRecording recording)) = false.
Proof.
assert (Hinv : session_invariant recording)
  by exact (conj eq_refl (ex_intro _ preamble_text eq_refl)).
refine (conj Hinv _).
exact (proj1 (stop_then_nothing recording Hinv)).
Defined.

Lemma pass_without_start_keeps_data_witness :
  in_key_r key_up_with_sentence = false /\
  file_content recording "/track_2024-5-17_5.gpx" = Some preamble_text /\
  exists more,
    file_content (Sketch115200.loop key_up_with_sentence recording)
      "/track_2024-5-17_5.gpx" = Some (preamble_text ++ more).
Proof.
refine (conj eq_refl (conj eq_refl _)).
exact (proj1 (pass_without_start_keeps_data key_up_with_sentence recording
                "/track_2024-5-17_5.gpx" preamble_text (or_introl eq_refl) eq_refl)).
Defined.

Lemma session_file_is_track_witness :
  fst (createGPX sample_fix 5000 true (boot fresh_card)) = Started /\
  sd_ok (card (boot (F := Q) fresh_card)) = true /\
  fst (stopRecording (append_points three_calls recording)) = Stopped.
Proof.
refine (conj eq_refl (conj eq_refl _)).
exact (proj1 (session_file_is_track sample_fix 5000 true three_calls
                (boot fresh_card) eq_refl eq_refl)).
Defined.

Lemma unstopped_session_file_witness :
  fst (createGPX sample_fix 5000 true (boot fresh_card)) = Started /\
  sd_ok (card (boot (F := Q) fresh_card)) = true /\
  Xml.elements (preamble_text ++ points_text (located three_calls)) = None.
Proof.
refine (conj eq_refl (conj eq_refl _)).
exact (proj1 (proj2 (unstopped_session_file sample_fix 5000 true three_calls
                       (boot fresh_card) eq_refl eq_refl))).
Defined.

Lemma elapsed_across_overflow_witness :
  0 <= 4294967000 < UINT32 /\ 0 <= 5000 < UINT32 /\
  elapsed ((4294967000 + 5000) mod UINT32) 4294967000 = 5000.
Proof.
assert (H1 : 0 <= 4294967000 < UINT32) by (unfold UINT32; lia).
assert (H2 : 0 <= 5000 < UINT32) by (unfold UINT32; lia).
refine (conj H1 (conj H2 _)).
exact (elapsed_across_overflow 4294967000 5000 H1 H2).
Defined.

Lemma gate_shut_for_an_interval_witness :
  isRecording recording = true /\
  elapsed 5000 (lastWrite recording) > 3000 /\
  elapsed 7000 5001 <= 3000 /\
  loop_gpx sample_fix 7000 7001 (loop_gpx sample_fix 5000 5001 recording)
    = loop_gpx sample_fix 5000 5001 recording.
Proof.
assert (H1 : elapsed 5000 (lastWrite recording) > 3000) by (vm_compute; reflexivity).
assert (H2 : elapsed 7000 5001 <= 3000) by (vm_compute; discriminate).
refine (conj eq_refl (conj H1 (conj H2 _))).
exact (proj2 (gate_shut_for_an_interval sample_fix sample_fix 5000 5001 7000 7001
                recording eq_refl H1 H2)).
Defined.

Lemma Sketch115200_held_key_toggles_once_witness :
  in_key_r key_down = true /\
  isRecording (Sketch115200.loop key_down (Sketch115200.loop key_down (boot fresh_card)))
    = isRecording (Sketch115200.loop key_down (boot fresh_card)).
Proof.
refine (conj eq_refl _).
exact (proj1 (Sketch115200_held_key_toggles_once key_down key_down (boot fresh_card)
                eq_refl)).
Defined.

Lemma GPSSMACARD_held_key_toggles_again_witness :
  in_key_r key_down = true /\ isRecording (boot (F := Q) fresh_card) = false /\
  in_open_ok key_down = true /\
  isRecording (GPSSMACARD.loop key_down (GPSSMACARD.loop key_down (boot fresh_card)))
    = false.
Proof.
refine (conj eq_refl (conj eq_refl (conj eq_refl _))).
exact (proj1 (proj2 (GPSSMACARD_held_key_toggles_again key_down key_down
                       (boot fresh_card) eq_refl eq_refl eq_refl eq_refl))).
Defined.

Lemma pass_writes_point_with_fresh_quality_witness :
  session_invariant recording /\ isRecording recording = true /\
  sd_ok (card recording) = true /\ in_key_r key_up_with_sentence = false /\
  location_valid (in_gps key_up_with_sentence) = true /\
  elapsed (in_now_gate key_up_with_sentence) (lastWrite recording) > 3000 /\
  lastWrite (Sketch115200.loop key_up_with_sentence recording) = 9001.
Proof.
assert (Hinv : session_invariant recording)
  by exact (conj eq_refl (ex_intro _ preamble_text eq_refl)).
assert (Hgate : elapsed (in_now_gate key_up_with_sentence) (lastWrite recording) > 3000)
  by (vm_compute; reflexivity).
refine (conj Hinv (conj eq_refl (conj eq_refl (conj eq_refl (conj eq_refl (conj Hgate _)))))).
exact (proj1 (pass_writes_point_with_fresh_quality key_up_with_sentence recording
                Hinv eq_refl eq_refl eq_refl eq_refl Hgate)).
Defined.

Lemma track_filename_same_iff_same_second_witness :
  0 <= 5000 /\ 0 <= 5999 /\
  track_filename sample_fix 5000 = track_filename sample_fix 5999.
Proof.
assert (H1 : 0 <= 5000) by lia. assert (H2 : 0 <= 5999) by lia.
refine (conj H1 (conj H2 _)).
exact (proj2 (track_filename_same_iff_same_second sample_fix 5000 5999 H1 H2) eq_refl).
Defined.

Lemma reachable_recording_iff_handle_witness :
  reachable Sketch115200.loop (Sketch115200.loop key_down (boot fresh_card)) /\
  (isRecording (Sketch115200.loop key_down (boot fresh_card)) = true <->
   is_Some (gpxFile (Sketch115200.loop key_down (boot fresh_card)))).
Proof.
assert (Hr : reachable Sketch115200.loop (Sketch115200.loop key_down (boot fresh_card)))
  by exact (reachable_loop _ key_down _ (reachable_boot _ fresh_card)).
refine (conj Hr _).
exact (proj1 (reachable_recording_iff_handle _ (or_introl Hr))).
Defined.

Lemma timestamp_has_twenty_characters_witness :
  (year sample_fix < 10000)%N /\ (second sample_fix < 100)%N /\
  String.length (timestamp sample_fix) = 20%nat.
Proof.
refine (conj eq_refl (conj eq_refl _)).
exact (timestamp_has_twenty_characters sample_fix
         eq_refl eq_refl eq_refl eq_refl eq_refl eq_refl).
Defined.
